(** * Flight sniper agent: price cleaning, direct-flight extraction, recommendations

    A shallow embedding of [flight_filter.py] ([clean_price],
    [find_direct_flights]) and of the recommendation code that
    [agent.py] ([search_flights_tool]) and [streamlit_app.py] run on the
    extracted flights, together with the properties the specification
    states about them.

    Conventions.
    - A value read by [json.load] is a [pyval]; a JSON object is an
      association list in insertion order, which is the order
      [dict.values()] iterates in.
    - Text is a [string] of UTF-8 bytes.  Whitespace and decimal digits are
      the ASCII ones; Python additionally accepts the non-ASCII Unicode
      spaces and digits, which are outside this model.
    - A Python [float] is a binary64 number, a [spec_float] operated on
      with precision 53 and maximal exponent 1024.
    - A raised exception is a [Raise]; [print] calls are recorded as
      [event]s in the order they happen. *)

From Stdlib Require Import ZArith String Ascii SpecFloat DecimalString DecimalPos.
From stdpp Require Import base list gmap strings sorting.

Open Scope string_scope.
Open Scope list_scope.
Open Scope nat_scope.

(** ** Python values and the builtins the program uses *)

Module Py.

Inductive exn :=
| KeyError | IndexError | TypeError | AttributeError | ValueError | OverflowError.

Inductive result (A : Type) :=
| Ok (a : A)
| Raise (e : exn).
Arguments Ok {A} a.
Arguments Raise {A} e.

#[export] Instance result_ret : MRet result := fun _ a => Ok a.
#[export] Instance result_bind : MBind result := fun _ _ f m =>
  match m with Ok a => f a | Raise e => Raise e end.
#[export] Instance result_fmap : FMap result := fun _ _ f m =>
  match m with Ok a => Ok (f a) | Raise e => Raise e end.

#[export] Instance exn_eq_dec : EqDecision exn.
Proof. solve_decision. Defined.

#[local] Unset Elimination Schemes.
Inductive pyval :=
| VNone
| VBool (b : bool)
| VInt (z : Z)
| VFloat (x : spec_float)
| VStr (s : string)
| VList (l : list pyval)
| VDict (d : list (string * pyval)).
#[local] Set Elimination Schemes.

(** [bool(v)]: the truth value of a JSON value. *)
Definition truthy (v : pyval) : bool :=
  match v with
  | VNone => false
  | VBool b => b
  | VInt z => negb (z =? 0)%Z
  | VFloat (S754_zero _) => false
  | VFloat _ => true
  | VStr s => negb (String.eqb s "")
  | VList l => match l with [] => false | _ => true end
  | VDict d => match d with [] => false | _ => true end
  end.

Fixpoint dict_lookup (k : string) (d : list (string * pyval)) : option pyval :=
  match d with
  | [] => None
  | (k', v) :: d' => if String.eqb k k' then Some v else dict_lookup k d'
  end.

Definition dict_has (k : string) (d : list (string * pyval)) : bool :=
  match dict_lookup k d with Some _ => true | None => false end.

(** [v.get(k, dflt)]: only dictionaries have the method. *)
Definition py_get (v : pyval) (k : string) (dflt : pyval) : result pyval :=
  match v with
  | VDict d => Ok (default dflt (dict_lookup k d))
  | _ => Raise AttributeError
  end.

(** [v[k]] for a string [k]. *)
Definition py_getitem (v : pyval) (k : string) : result pyval :=
  match v with
  | VDict d => match dict_lookup k d with Some x => Ok x | None => Raise KeyError end
  | _ => Raise TypeError
  end.

(** The characters of a text: each starts at a byte that is not a UTF-8
    continuation byte (10xxxxxx). *)
Definition is_continuation (c : ascii) : bool :=
  let n := N_of_ascii c in ((128 <=? n) && (n <? 192))%N.

Fixpoint utf8_chars (s : string) : list string :=
  match s with
  | EmptyString => []
  | String c s' =>
      match utf8_chars s' with
      | t :: ts =>
          match t with
          | String c' _ => if is_continuation c' then String c t :: ts
                           else String c EmptyString :: t :: ts
          | EmptyString => String c EmptyString :: ts
          end
      | [] => [String c EmptyString]
      end
  end.

(** [v[0]]: a JSON object has string keys only, so the integer key 0 is
    never found in one. *)
Definition py_item0 (v : pyval) : result pyval :=
  match v with
  | VList (x :: _) => Ok x
  | VList [] => Raise IndexError
  | VStr s => match utf8_chars s with c :: _ => Ok (VStr c) | [] => Raise IndexError end
  | VDict _ => Raise KeyError
  | _ => Raise TypeError
  end.

Fixpoint is_substring (k s : string) : bool :=
  String.prefix k s ||
  match s with
  | EmptyString => false
  | String _ s' => is_substring k s'
  end.

Definition is_str (k : string) (v : pyval) : bool :=
  match v with VStr s => String.eqb s k | _ => false end.

(** [k in v] for a string [k]. *)
Definition py_contains (v : pyval) (k : string) : result bool :=
  match v with
  | VDict d => Ok (dict_has k d)
  | VList l => Ok (existsb (is_str k) l)
  | VStr s => Ok (is_substring k s)
  | _ => Raise TypeError
  end.

(** [v.values()]. *)
Definition py_values (v : pyval) : result (list pyval) :=
  match v with
  | VDict d => Ok (d.*2)
  | _ => Raise AttributeError
  end.

(** The elements [list.extend(v)] appends. *)
Definition py_iter (v : pyval) : result (list pyval) :=
  match v with
  | VList l => Ok l
  | VDict d => Ok (VStr <$> d.*1)
  | VStr s => Ok (VStr <$> utf8_chars s)
  | _ => Raise TypeError
  end.

(** *** Text *)

(** [s.replace(old, new)] for a non-empty [old]: the occurrences are taken
    from the left and do not overlap; [skip] counts the bytes of a matched
    occurrence still to pass over. *)
Fixpoint replace_from (old new : string) (skip : nat) (s : string) : string :=
  match s with
  | EmptyString => EmptyString
  | String c s' =>
      match skip with
      | S k => replace_from old new k s'
      | O =>
          if String.prefix old s
          then (new ++ replace_from old new (String.length old - 1) s')%string
          else String c (replace_from old new 0 s')
      end
  end.

Definition replace (old new s : string) : string := replace_from old new 0 s.

(** ASCII characters for which [str.isspace] holds. *)
Definition is_space (c : ascii) : bool :=
  let n := N_of_ascii c in
  ((n =? 32) || ((9 <=? n) && (n <=? 13)) || ((28 <=? n) && (n <=? 31)))%N.

Fixpoint lstrip (s : string) : string :=
  match s with
  | EmptyString => EmptyString
  | String c s' => if is_space c then lstrip s' else s
  end.

Fixpoint rstrip (s : string) : string :=
  match s with
  | EmptyString => EmptyString
  | String c s' =>
      match rstrip s' with
      | EmptyString => if is_space c then EmptyString else String c EmptyString
      | r => String c r
      end
  end.

Definition strip (s : string) : string := rstrip (lstrip s).

Definition digit_of (c : ascii) : option Z :=
  let n := N_of_ascii c in
  if ((48 <=? n) && (n <=? 57))%N then Some (Z.of_N n - 48)%Z else None.

(** Decimal digits, single underscores allowed between two digits. *)
Fixpoint digits_value (acc : Z) (after_digit : bool) (s : string) : option Z :=
  match s with
  | EmptyString => if after_digit then Some acc else None
  | String c s' =>
      match digit_of c with
      | Some d => digits_value (10 * acc + d)%Z true s'
      | None =>
          if Ascii.eqb c "_" && after_digit then digits_value acc false s' else None
      end
  end.

(** [sys.get_int_max_str_digits()], as Python sets it: a text with more
    digits (leading zeros counted, underscores not) is refused. *)
Definition int_max_str_digits : N := 4300.

Fixpoint count_digits (s : string) : N :=
  match s with
  | EmptyString => 0%N
  | String c s' =>
      ((match digit_of c with Some _ => 1 | None => 0 end) + count_digits s')%N
  end.

(** [int(s)] on text: surrounding whitespace, an optional sign, digits, no
    more of them than [int_max_str_digits].  Anything else is a
    [ValueError]. *)
Definition int_of_str (s : string) : result Z :=
  let body := strip s in
  let parsed :=
    match body with
    | String "-" t => Z.opp <$> digits_value 0 false t
    | String "+" t => digits_value 0 false t
    | _ => digits_value 0 false body
    end in
  match parsed with
  | Some z =>
      if (int_max_str_digits <? count_digits body)%N then Raise ValueError else Ok z
  | None => Raise ValueError
  end.

(** *** Numbers *)

Definition prec : Z := 53.
Definition emax : Z := 1024.

(** [int(x)] on a float: truncation towards zero; infinities and NaN have
    no integer value. *)
Definition int_of_float (x : spec_float) : result Z :=
  match x with
  | S754_zero _ => Ok 0%Z
  | S754_infinity _ => Raise OverflowError
  | S754_nan => Raise ValueError
  | S754_finite s m e =>
      let a := if (0 <=? e)%Z then (Z.pos m * 2 ^ e)%Z else (Z.pos m / 2 ^ (- e))%Z in
      Ok (if s then (- a)%Z else a)
  end.

(** [float(z)], the conversion an int undergoes in mixed arithmetic:
    rounded to nearest even, [OverflowError] beyond the binary64 range. *)
Definition float_of_int (z : Z) : result spec_float :=
  match binary_normalize prec emax z 0 false with
  | S754_infinity _ => Raise OverflowError
  | x => Ok x
  end.

(** [z <= x] for an int [z] and a float [x]: Python compares the exact
    values. *)
Definition int_le_float (z : Z) (x : spec_float) : bool :=
  match x with
  | S754_zero _ => (z <=? 0)%Z
  | S754_infinity s => negb s
  | S754_nan => false
  | S754_finite s m e =>
      let v := if s then Z.neg m else Z.pos m in
      if (0 <=? e)%Z then (z <=? v * 2 ^ e)%Z else (z * 2 ^ (- e) <=? v)%Z
  end.

End Py.
Export Py.

(** ** Prices and Python's stable [sorted] *)

Module Price.

(** A cleaned price: an int, or [float('inf')]. *)
Inductive price :=
| PInt (z : Z)
| PInf.

#[export] Instance price_eq_dec : EqDecision price.
Proof. solve_decision. Defined.

(** [a < b] on cleaned prices. *)
Definition price_ltb (a b : price) : bool :=
  match a, b with
  | PInt x, PInt y => (x <? y)%Z
  | PInt _, PInf => true
  | PInf, _ => false
  end.

(** [a <= b], non-decreasing order. *)
Definition price_le (a b : price) : Prop := price_ltb b a = false.

Section Sorted.
Context {A : Type} (key : A -> price).

(** [x] is put in front of the first element whose key is not smaller
    than its own: elements with equal keys keep their order. *)
Fixpoint insert_by (x : A) (l : list A) : list A :=
  match l with
  | [] => [x]
  | y :: l' => if price_ltb (key y) (key x) then y :: insert_by x l' else x :: l
  end.

(** [sorted(l, key=key)]: [sorted] is stable, and a stable sort has one
    result, which insertion from the right computes. *)
Fixpoint py_sorted (l : list A) : list A :=
  match l with
  | [] => []
  | x :: l' => insert_by x (py_sorted l')
  end.

Definition key_le (x y : A) : Prop := price_le (key x) (key y).
End Sorted.

End Price.
Export Price.

(** ** [flight_filter.py] *)

Module FlightFilter.

(** [clean_price(price_input)].  [bool] is a subclass of [int]; the
    [try] around [int(clean_str)] catches [ValueError] and nothing else,
    and [int(price_input)] on a number is not guarded at all. *)
Definition clean_price (price_input : pyval) : result price :=
  match price_input with
  | VNone => Ok PInf
  | VBool b => Ok (PInt (Z.b2z b))
  | VInt z => Ok (PInt z)
  | VFloat x => PInt <$> int_of_float x
  | VStr s =>
      let clean_str := strip (replace "INR" "" (replace "," "" (replace "₹" "" s))) in
      match int_of_str clean_str with
      | Ok z => Ok (PInt z)
      | Raise ValueError => Ok PInf
      | Raise e => Raise e
      end
  | VList _ | VDict _ => Ok PInf
  end.

(** The [link] entry: a value taken over as it is, or the f-string
    [f"{search_url}&booking_token={booking_token}"] of the two values. *)
Inductive link_value :=
| LinkOf (v : pyval)
| LinkWithToken (search_url booking_token : pyval).

(** The dictionary built per flight.  [K] is the type of the airline and
    of the flight number: any JSON value when it is extracted, text where
    the recommendation code uses it as a dictionary key. *)
Record flight_info (K : Type) := FlightInfo {
  airline : K;
  flight_number : K;
  departure : pyval;
  arrival : pyval;
  duration : pyval;
  price_raw : pyval;
  price_value : price;
  link : link_value
}.
Arguments FlightInfo {K}.
Arguments airline {K}.
Arguments flight_number {K}.
Arguments departure {K}.
Arguments arrival {K}.
Arguments duration {K}.
Arguments price_raw {K}.
Arguments price_value {K}.
Arguments link {K}.

(** What [print] writes. *)
Inductive event :=
| ReportFileNotFound
| ReportAnalyzing (n : nat)
| ReportSkipping (e : exn).

(** A computation that prints and then returns or raises. *)
Record io (A : Type) := IO { printed : list event; outcome : result A }.
Arguments IO {A}.
Arguments printed {A}.
Arguments outcome {A}.

#[export] Instance io_ret : MRet io := fun _ a => IO [] (Ok a).
#[export] Instance io_bind : MBind io := fun _ _ f m =>
  match outcome m with
  | Ok a => IO (printed m ++ printed (f a)) (outcome (f a))
  | Raise e => IO (printed m) (Raise e)
  end.

Definition print (ev : event) : io unit := IO [ev] (Ok tt).
Definition lift {A} (r : result A) : io A := IO [] r.

(** What [open] and [json.load] deliver. *)
Inductive json_file :=
| FileNotFound
| Loaded (data : pyval).

(** [sources.extend(v)]. *)
Definition extend (sources : list pyval) (v : pyval) : result (list pyval) :=
  items ← py_iter v; Ok (sources ++ items).

(** Lines 39-43: the two well-known groupings. *)
Definition known_sources (data : pyval) : result (list pyval) :=
  best ← py_contains data "best_flights";
  sources ← (if best : bool
             then v ← py_getitem data "best_flights"; extend [] v
             else Ok []);
  other ← py_contains data "other_flights";
  if other : bool
  then v ← py_getitem data "other_flights"; extend sources v
  else Ok sources.

(** [isinstance(v, list) and v], then [isinstance(first, dict) and
    'flights' in first] for [first = v[0]]. *)
Definition looks_like_flights (v : pyval) : bool :=
  match v with
  | VList (VDict first :: _) => dict_has "flights" first
  | _ => false
  end.

(** Lines 48-53: the loop over [data.values()], left at the first match. *)
Fixpoint scan_values (vals : list pyval) (sources : list pyval) : list pyval :=
  match vals with
  | [] => sources
  | v :: vals' =>
      if looks_like_flights v
      then match v with VList l => sources ++ l | _ => sources end
      else scan_values vals' sources
  end.

Definition gather_sources (data : pyval) : result (list pyval) :=
  sources ← known_sources data;
  match sources with
  | [] => vals ← py_values data; Ok (scan_values vals sources)
  | _ => Ok sources
  end.

(** [flight['flights'][0]]. *)
Definition first_segment (flight : pyval) : result pyval :=
  segments ← py_getitem flight "flights"; py_item0 segments.

(** The body of the [try] block, lines 72-97. *)
Definition flight_entry (search_url flight : pyval) : result (flight_info pyval) :=
  segment ← first_segment flight;
  booking_token ← py_get flight "booking_token" VNone;
  per_flight_url ← py_get flight "google_flights_url" VNone;
  let link_value :=
    if truthy per_flight_url then LinkOf per_flight_url
    else if truthy booking_token && truthy search_url
         then LinkWithToken search_url booking_token
    else if truthy search_url then LinkOf search_url
    else LinkOf (VStr "No link") in
  airline ← py_get segment "airline" (VStr "Unknown");
  flight_number ← py_get segment "flight_number" (VStr "N/A");
  departure_airport ← py_get segment "departure_airport" (VDict []);
  departure ← py_get departure_airport "time" (VStr "Unknown");
  arrival_airport ← py_get segment "arrival_airport" (VDict []);
  arrival ← py_get arrival_airport "time" (VStr "Unknown");
  duration ← py_get flight "total_duration" (VStr "Unknown");
  price_raw ← py_get flight "price" VNone;
  price ← py_get flight "price" VNone;
  price_value ← clean_price price;
  Ok (FlightInfo airline flight_number departure arrival duration
                 price_raw price_value link_value).

(** [except (KeyError, IndexError)]. *)
Definition caught (e : exn) : bool :=
  match e with KeyError | IndexError => true | _ => false end.

(** The loop of lines 59-102 over [sources], [all_flights] being the list
    appended to. *)
Fixpoint collect (search_url : pyval) (sources : list pyval)
    (all_flights : list (flight_info pyval)) : io (list (flight_info pyval)) :=
  match sources with
  | [] => mret all_flights
  | flight :: rest =>
      has_layovers ← lift (py_get flight "layovers" VNone);
      if truthy has_layovers then collect search_url rest all_flights
      else
        match flight_entry search_url flight with
        | Ok flight_info => collect search_url rest (all_flights ++ [flight_info])
        | Raise e =>
            if caught e
            then print (ReportSkipping e);; collect search_url rest all_flights
            else lift (Raise e)
        end
  end.

(** Everything before the sort: the flights in the order they are met. *)
Definition direct_flights (data : pyval) : io (list (flight_info pyval)) :=
  sources ← lift (gather_sources data);
  print (ReportAnalyzing (length sources));;
  search_url ← lift (metadata ← py_get data "search_metadata" (VDict []);
                     py_get metadata "google_flights_url" VNone);
  collect search_url sources [].

(** [find_direct_flights(json_file_path)], on what the file holds. *)
Definition find_direct_flights (file : json_file) : io (list (flight_info pyval)) :=
  match file with
  | FileNotFound => print ReportFileNotFound;; mret []
  | Loaded data =>
      all_flights ← direct_flights data;
      mret (py_sorted price_value all_flights)
  end.

End FlightFilter.
Export FlightFilter.

(** ** The recommendation code of [agent.py] and [streamlit_app.py]

    Both files run the same statements on the list [find_direct_flights]
    returned; [agent.py] fixes [max_picks] to 3 and [tolerance_pct] to
    0.05, [streamlit_app.py] reads [top_n] (at least 1) and computes
    [tolerance / 100.0].  A slice bound is a natural number here, and the
    airline and the flight number of a flight are text, as the search API
    delivers them and as ['Unknown'] and ['N/A'] are. *)

Module Agent.

Abbreviation flight := (flight_info string).

(** [cleaned_flights[0]['price_value']]. *)
Definition cheapest_price (cleaned_flights : list flight) : result price :=
  match cleaned_flights with
  | [] => Raise IndexError
  | f :: _ => Ok (price_value f)
  end.

(** The loop filling the dictionary [unique_airlines]: its items, in
    insertion order. *)
Fixpoint unique_airlines (cleaned_flights : list flight)
    (unique : list (string * flight)) : list (string * flight) :=
  match cleaned_flights with
  | [] => unique
  | f :: rest =>
      let airline_name := airline f in
      if bool_decide (airline_name ∈ unique.*1)
      then unique_airlines rest unique
      else unique_airlines rest (unique ++ [(airline_name, f)])
  end.

Definition diverse_flights (cleaned_flights : list flight) : list flight :=
  py_sorted price_value (unique_airlines cleaned_flights []).*2.

(** The loop appending the next cheapest flights, left when
    [len(recommended) >= max_picks]. *)
Fixpoint fill (max_picks : nat) (cleaned_flights recommended : list flight)
    (seen : gset string) : list flight :=
  match cleaned_flights with
  | [] => recommended
  | f :: rest =>
      if bool_decide (flight_number f ∈ seen)
      then fill max_picks rest recommended seen
      else
        let recommended := recommended ++ [f] in
        let seen := seen ∪ {[flight_number f]} in
        if bool_decide (max_picks ≤ length recommended)%nat
        then recommended
        else fill max_picks rest recommended seen
  end.

Definition flight_numbers (l : list flight) : gset string :=
  list_to_set (flight_number <$> l).

Definition recommended (cleaned_flights : list flight) (max_picks : nat) : list flight :=
  let recommended := take max_picks (diverse_flights cleaned_flights) in
  if bool_decide (length recommended < max_picks)%nat
  then fill max_picks cleaned_flights recommended (flight_numbers recommended)
  else recommended.

Definition one : spec_float := binary_normalize prec emax 1 0 false.

(** [cheapest_price * (1 + tolerance_pct)] in binary64. *)
Definition threshold (cheapest_price : price) (tolerance_pct : spec_float)
    : result spec_float :=
  let factor := SFadd prec emax one tolerance_pct in
  match cheapest_price with
  | PInt z => c ← float_of_int z; Ok (SFmul prec emax c factor)
  | PInf => Ok (SFmul prec emax (S754_infinity false) factor)
  end.

(** [price_value <= threshold]. *)
Definition price_le_float (p : price) (x : spec_float) : bool :=
  match p with
  | PInt z => int_le_float z x
  | PInf => match x with S754_infinity false => true | _ => false end
  end.

(** The comprehension building [alt_candidates]. *)
Definition alt_candidates (cleaned_flights recommended : list flight)
    (threshold : spec_float) : list flight :=
  List.filter
    (fun f => price_le_float (price_value f) threshold
              && negb (bool_decide (flight_number f ∈ flight_numbers recommended)))
    cleaned_flights.

(** The two lists built from the flights found.  Nothing below the guard
    [if not cleaned_flights] runs on an empty list, and neither list is
    built then. *)
Definition recommend (cleaned_flights : list flight) (max_picks : nat)
    (tolerance_pct : spec_float) : result (list flight * list flight) :=
  match cleaned_flights with
  | [] => Ok ([], [])
  | _ =>
      cheapest ← cheapest_price cleaned_flights;
      let recommended := recommended cleaned_flights max_picks in
      threshold ← threshold cheapest tolerance_pct;
      Ok (recommended, alt_candidates cleaned_flights recommended threshold)
  end.

(** [agent.py]: three picks, [tolerance_pct = 0.05]. *)
Definition search_flights_tool (cleaned_flights : list flight)
    : result (list flight * list flight) :=
  recommend cleaned_flights 3 (S754_finite false 0x1999999999999a (-57)).

(** [streamlit_app.py]: [top_n] picks, [tolerance / 100.0] for the slider
    value [tolerance]. *)
Definition streamlit_search (flights : list flight) (tolerance top_n : nat)
    : result (list flight * list flight) :=
  recommend flights top_n
    (SFdiv prec emax (binary_normalize prec emax (Z.of_nat tolerance) 0 false)
                     (binary_normalize prec emax 100 0 false)).

(** An extracted flight whose airline and flight number are text. *)
Definition keyed (f : flight_info pyval) : option flight :=
  match airline f, flight_number f with
  | VStr a, VStr n =>
      Some (FlightInfo a n (departure f) (arrival f) (duration f)
                       (price_raw f) (price_value f) (link f))
  | _, _ => None
  end.

(** The smallest [price_value] of a list, as the specification defines
    the cheapest price. *)
Definition price_min (a b : price) : price := if price_ltb b a then b else a.

Definition minimum_price (l : list flight) : option price :=
  match l with
  | [] => None
  | f :: rest => Some (foldr (fun g m => price_min (price_value g) m) (price_value f) rest)
  end.

End Agent.
Export Agent.

(** ** Notions of the specification *)

Module Spec.

(** The layover indicator of an offer: what it holds under ['layovers'],
    [None] when it holds nothing there. *)
Definition layover_indicator (offer : pyval) : pyval :=
  match offer with
  | VDict d => default VNone (dict_lookup "layovers" d)
  | _ => VNone
  end.

(** The route segments of an offer: the list under ['flights']. *)
Definition route_segments (offer : pyval) : list pyval :=
  match offer with
  | VDict d =>
      match dict_lookup "flights" d with
      | Some (VList segments) => segments
      | _ => []
      end
  | _ => []
  end.

(** An offer without (non-empty) layover indicator and with at least one
    route segment. *)
Definition direct_with_segment (offer : pyval) : bool :=
  negb (truthy (layover_indicator offer))
  && match route_segments offer with [] => false | _ => true end.

(** An offer whose segment access fails the way the [try] block expects:
    a record without layovers whose ['flights'] entry is missing or has no
    first element. *)
Definition malformed (offer : pyval) (e : exn) : Prop :=
  (∃ d, offer = VDict d) ∧
  truthy (layover_indicator offer) = false ∧
  first_segment offer = Raise e ∧
  (e = KeyError ∨ e = IndexError).

Definition is_dict (v : pyval) : bool :=
  match v with VDict _ => true | _ => false end.

Definition finite_price (v : pyval) : bool :=
  match v with
  | VFloat (S754_infinity _) | VFloat S754_nan => false
  | _ => true
  end.

(** An offer of the expected shape: a record that has layovers, or whose
    ['flights'] entry is missing or without first element, or starts with a
    record whose airports, where present, are records, the price not being
    an infinite float or NaN. *)
Definition well_shaped (offer : pyval) : bool :=
  match offer with
  | VDict d =>
      truthy (layover_indicator offer) ||
      match dict_lookup "flights" d with
      | Some (VList (VDict seg :: _)) =>
          is_dict (default (VDict []) (dict_lookup "departure_airport" seg))
          && is_dict (default (VDict []) (dict_lookup "arrival_airport" seg))
          && finite_price (default VNone (dict_lookup "price" d))
      | Some (VList []) | Some (VDict _) | None => true
      | Some (VStr s) => match utf8_chars s with [] => true | _ => false end
      | Some _ => false
      end
  | _ => false
  end.

(** The two well-known groupings. *)
Definition grouping_present (data : pyval) : bool :=
  match data with
  | VDict d => dict_has "best_flights" d || dict_has "other_flights" d
  | _ => false
  end.

End Spec.
Export Spec.

(** ** Sample inputs *)

Module Examples.

Definition segment (airline flight_number : string) : pyval :=
  VDict [("airline", VStr airline); ("flight_number", VStr flight_number);
         ("departure_airport", VDict [("time", VStr "2026-01-20 06:00")]);
         ("arrival_airport", VDict [("time", VStr "2026-01-20 08:10")])].

Definition offer (airline flight_number : string) (price : pyval) : pyval :=
  VDict [("flights", VList [segment airline flight_number]);
         ("total_duration", VInt 130); ("price", price)].

Definition with_layover (airline flight_number : string) (price : pyval) : pyval :=
  VDict [("flights", VList [segment airline flight_number; segment airline "X 2"]);
         ("layovers", VList [VDict [("name", VStr "Jaipur")]]);
         ("price", price)].

(** Five offers, one of them with a layover, the prices of the scenario of
    the specification, and two offers the [try] block gives up on. *)
Definition sample_payload : pyval :=
  VDict [("search_metadata", VDict [("google_flights_url", VStr "https://g.co/f?q=1")]);
         ("best_flights",
          VList [offer "A" "A 101" (VStr "₹4,500"); offer "B" "B 202" (VStr "₹4,000")]);
         ("other_flights",
          VList [offer "A" "A 303" (VInt 5200);
                 with_layover "D" "D 1" (VInt 3000);
                 VDict [("price", VInt 1)];
                 VDict [("flights", VList [])];
                 offer "C" "C 404" (VStr "bad")])].

Definition entry (airline flight_number : string) (price_raw : pyval) (p : price)
    : flight_info pyval :=
  FlightInfo (VStr airline) (VStr flight_number) (VStr "2026-01-20 06:00")
             (VStr "2026-01-20 08:10") (VInt 130) price_raw p
             (LinkOf (VStr "https://g.co/f?q=1")).

Definition sample_met : list (flight_info pyval) :=
  [entry "A" "A 101" (VStr "₹4,500") (PInt 4500);
   entry "B" "B 202" (VStr "₹4,000") (PInt 4000);
   entry "A" "A 303" (VInt 5200) (PInt 5200);
   entry "C" "C 404" (VStr "bad") PInf].

Definition sample_out : list (flight_info pyval) :=
  [entry "B" "B 202" (VStr "₹4,000") (PInt 4000);
   entry "A" "A 101" (VStr "₹4,500") (PInt 4500);
   entry "A" "A 303" (VInt 5200) (PInt 5200);
   entry "C" "C 404" (VStr "bad") PInf].

Definition sample_printed : list event :=
  [ReportAnalyzing 7; ReportSkipping KeyError; ReportSkipping IndexError].

(** An offer whose ['flights'] entry is [null], followed by a good one. *)
Definition wrongly_shaped_payload : pyval :=
  VDict [("best_flights",
          VList [VDict [("flights", VNone); ("price", VInt 3000)];
                 offer "A" "A 101" (VInt 4500)])].

(** An offer priced [1e999], which [json.load] reads as the float [inf],
    followed by a good one. *)
Definition infinite_price_payload : pyval :=
  VDict [("best_flights",
          VList [offer "A" "A 101" (VFloat (S754_infinity false));
                 offer "B" "B 202" (VInt 4000)])].

(** A payload with an empty well-known grouping and another list of
    offers. *)
Definition empty_grouping_payload : pyval :=
  VDict [("best_flights", VList []);
         ("results", VList [offer "A" "A 101" (VInt 4500)]);
         ("more", VList [offer "B" "B 202" (VInt 4000)])].

Definition fl (airline flight_number : string) (p : price) : flight :=
  FlightInfo airline flight_number (VStr "2026-01-20 06:00")
             (VStr "2026-01-20 08:10") (VInt 130) VNone p (LinkOf (VStr "No link")).

(** 0.05 and 0.15 in binary64. *)
Definition tol5 : spec_float := S754_finite false 0x1999999999999a (-57).
Definition tol15 : spec_float := S754_finite false 0x13333333333333 (-55).

Definition sample_flights : list flight :=
  [fl "B" "B 202" (PInt 4000); fl "B" "B 204" (PInt 4100);
   fl "A" "A 101" (PInt 4200); fl "A" "A 303" (PInt 4201);
   fl "C" "C 404" PInf].

(** Two airlines whose segments carry no flight number: both get the
    default ['N/A']. *)
Definition shared_number_flights : list flight :=
  [fl "A" "N/A" (PInt 4000); fl "B" "N/A" (PInt 4100)].

Definition repeated_number_flights : list flight :=
  [fl "A" "N/A" (PInt 4000); fl "A" "N/A" (PInt 4100); fl "A" "N/A" (PInt 4200)].

End Examples.

(** ** Further notions *)

Module Notions.

(** A [link] entry a reader can use: a true value (not [None], not the
    empty text), or the f-string, which holds ["&booking_token="] at
    least. *)
Definition link_usable (l : link_value) : bool :=
  match l with
  | LinkOf v => truthy v
  | LinkWithToken _ _ => true
  end.

Definition has_layovers (offer : pyval) : bool := truthy (layover_indicator offer).

Definition priced {K} (f : flight_info K) : bool :=
  match price_value f with PInt _ => true | PInf => false end.

(** [str(z)]: the decimal notation of an int. *)
Definition str_of_int (z : Z) : string :=
  DecimalString.NilZero.string_of_int (Z.to_int z).

Fixpoint string_forall (P : ascii → bool) (s : string) : bool :=
  match s with
  | EmptyString => true
  | String c s' => P c && string_forall P s'
  end.

Definition is_digit (c : ascii) : bool :=
  match digit_of c with Some _ => true | None => false end.

(** The characters of a formatted amount: digits, commas, a minus sign. *)
Definition amount_char (c : ascii) : bool :=
  is_digit c || Ascii.eqb c "," || Ascii.eqb c "-".

End Notions.
Export Notions.

(** ** [streamlit_app.py]: [convert_to_iata]

    The input is taken to be ASCII text: on other text Python's [len],
    [isalpha] and [upper] count and change characters, not bytes. *)

Module Streamlit.

Definition is_ascii (s : string) : bool :=
  string_forall (λ c, (N_of_ascii c <? 128)%N) s.

Definition is_upper (c : ascii) : bool :=
  let n := N_of_ascii c in ((65 <=? n) && (n <=? 90))%N.

Definition is_lower (c : ascii) : bool :=
  let n := N_of_ascii c in ((97 <=? n) && (n <=? 122))%N.

Definition is_alpha (c : ascii) : bool := is_upper c || is_lower c.

Definition upper_char (c : ascii) : ascii :=
  if is_lower c then ascii_of_N (N_of_ascii c - 32) else c.

Definition lower_char (c : ascii) : ascii :=
  if is_upper c then ascii_of_N (N_of_ascii c + 32) else c.

(** [s.upper()], [s.lower()]. *)
Fixpoint upper (s : string) : string :=
  match s with
  | EmptyString => EmptyString
  | String c s' => String (upper_char c) (upper s')
  end.

Fixpoint lower (s : string) : string :=
  match s with
  | EmptyString => EmptyString
  | String c s' => String (lower_char c) (lower s')
  end.

(** [s.isalpha()]: at least one character, and letters only. *)
Definition isalpha (s : string) : bool :=
  negb (String.eqb s "") && string_forall is_alpha s.

(** [''.join([c for c in s if c.isalpha()])]. *)
Fixpoint letters (s : string) : string :=
  match s with
  | EmptyString => EmptyString
  | String c s' => if is_alpha c then String c (letters s') else letters s'
  end.

(** [s[:n]]. *)
Fixpoint first_chars (n : nat) (s : string) : string :=
  match n, s with
  | S n', String c s' => String c (first_chars n' s')
  | _, _ => EmptyString
  end.

Definition mapping : list (string * string) :=
  [("delhi", "DEL"); ("new delhi", "DEL"); ("mumbai", "BOM"); ("bombay", "BOM");
   ("hyderabad", "HYD"); ("bangalore", "BLR"); ("bengaluru", "BLR");
   ("lucknow", "LKO"); ("chennai", "MAA"); ("kolkata", "CCU"); ("pune", "PNQ");
   ("ahmedabad", "AMD"); ("goa", "GOI"); ("cochin", "COK"); ("kochi", "COK");
   ("jaipur", "JAI"); ("visakhapatnam", "VTZ"); ("vishakhapatnam", "VTZ");
   ("trivandrum", "TRV"); ("kanpur", "KNU"); ("varanasi", "VNS");
   ("nagpur", "NAG"); ("patna", "PAT")].

(** [mapping.get(k)]. *)
Fixpoint mapping_get (k : string) (m : list (string * string)) : option string :=
  match m with
  | [] => None
  | (k', v) :: m' => if String.eqb k k' then Some v else mapping_get k m'
  end.

Definition convert_to_iata (loc : string) : option string :=
  if String.eqb loc "" then None
  else
    let s := strip loc in
    if (String.length s =? 3) && isalpha s then Some (upper s)
    else
      let code := mapping_get (lower s) mapping in
      let guessed :=
        let guess := upper (first_chars 3 (letters s)) in
        if String.length guess =? 3 then Some guess else None in
      match code with
      | Some code => if String.eqb code "" then guessed else Some code
      | None => guessed
      end.

(** The best-effort guess of the last lines: the first three letters, in
    capitals, if there are three. *)
Definition guessed (s : string) : option string :=
  let guess := upper (first_chars 3 (letters s)) in
  if String.length guess =? 3 then Some guess else None.

End Streamlit.
Export Streamlit.

(** ** [agent.py]: the fallback models *)

Module Brain.

Definition not_comma (c : ascii) : bool := negb (Ascii.eqb c ",").

(** [s.split(",")]. *)
Fixpoint split_commas (s : string) : list string :=
  match s with
  | EmptyString => [EmptyString]
  | String c s' =>
      match split_commas s' with
      | piece :: pieces =>
          if Ascii.eqb c "," then EmptyString :: piece :: pieces
          else String c piece :: pieces
      | [] => []
      end
  end.

(** [[m.strip() for m in value.split(",") if m.strip()]]. *)
Definition fallback_models (value : string) : list string :=
  flat_map (λ m, if String.eqb (strip m) "" then [] else [strip m])
           (split_commas value).

(** [FALLBACK_MODELS], from what [GOOGLE_FALLBACK_MODELS] holds, if set. *)
Definition FALLBACK_MODELS (env : option string) : list string :=
  fallback_models
    (default "models/gemini-2.5-flash,models/gemini-flash-lite-latest" env).

(** The globals [llm], [llm_with_tools] (each by the name of its model)
    and [current_model]. *)
Record brain := Brain { llm : string; llm_with_tools : string; current_model : string }.

(** How far the [try] block gets with a fallback model. *)
Inductive attempt :=
| CreateRaises
| BindRaises
| InvokeRaises
| Answers.

#[export] Instance attempt_eq_dec : EqDecision attempt.
Proof. solve_decision. Defined.

(** The loop over [FALLBACK_MODELS] in [chat_with_agent], each model
    paired with what happens when its turn comes; the result holds
    [tried_fallback]. *)
Fixpoint try_fallbacks (fallbacks : list (string * attempt)) (st : brain) : brain * bool :=
  match fallbacks with
  | [] => (st, false)
  | (fb, outcome) :: rest =>
      if String.eqb fb (current_model st) then try_fallbacks rest st
      else
        match outcome with
        | CreateRaises => try_fallbacks rest st
        | BindRaises =>
            try_fallbacks rest (Brain fb (llm_with_tools st) (current_model st))
        | InvokeRaises =>
            try_fallbacks rest (Brain fb fb (current_model st))
        | Answers => (Brain fb fb fb, true)
        end
  end.

(** The models the loop gets to invoke in vain. *)
Definition invoked_in_vain (current : string) (fallbacks : list (string * attempt))
    : list string :=
  (filter (λ a : string * attempt, a.1 ≠ current ∧ a.2 = InvokeRaises) fallbacks).*1.

End Brain.
Export Brain.

(** ** Exact arithmetic, and more sample inputs *)

Module Exact.

(** [p <= c * (1 + t)] in exact arithmetic, [t] being the number the float
    [t] stands for, [v * 2 ^ e]: for a negative [e] both sides are
    multiplied by [2 ^ (- e)]. *)
Definition exact_within (p c : Z) (t : spec_float) : bool :=
  match t with
  | S754_zero _ => (p <=? c)%Z
  | S754_finite s m e =>
      let v := if s then Z.neg m else Z.pos m in
      if (0 <=? e)%Z then (p <=? c * (1 + v * 2 ^ e))%Z
      else (p * 2 ^ (- e) <=? c * (2 ^ (- e) + v))%Z
  | S754_infinity _ | S754_nan => false
  end.

(** [tolerance / 100.0] for the slider value 13. *)
Definition slider_13 : spec_float :=
  SFdiv prec emax (binary_normalize prec emax 13 0 false)
                  (binary_normalize prec emax 100 0 false).

Definition boundary_flights : list flight :=
  [Examples.fl "A" "A 101" (PInt 5000); Examples.fl "B" "B 202" (PInt 5650)].

(** An offer without layovers and with one segment, whose departure
    airport is a text instead of a record. *)
Definition text_airport_offer : pyval :=
  VDict [("flights",
          VList [VDict [("airline", VStr "B"); ("flight_number", VStr "B 202");
                        ("departure_airport", VStr "DEL")]]);
         ("price", VInt 4000)].

Definition text_airport_payload : pyval :=
  VDict [("best_flights",
          VList [Examples.offer "A" "A 101" (VInt 4500); text_airport_offer])].

End Exact.
Export Exact.

(** * Properties *)

(** ** The order on prices and the stable sort *)

Lemma price_ltb_irrefl a : price_ltb a a = false.
Proof. destruct a; simpl; [apply Z.ltb_irrefl | done]. Qed.

Lemma price_ltb_trans a b c :
  price_ltb a b = true → price_ltb b c = true → price_ltb a c = true.
Proof.
  destruct a, b, c; simpl; try done.
  rewrite !Z.ltb_lt. lia.
Qed.

Lemma price_ltb_total a b : price_ltb a b = false → price_ltb b a = false → a = b.
Proof.
  destruct a, b; simpl; try done.
  rewrite !Z.ltb_ge. intros. f_equal. lia.
Qed.

#[export] Instance price_le_dec a b : Decision (price_le a b).
Proof. unfold price_le. apply _. Defined.

#[export] Instance price_le_refl : Reflexive price_le.
Proof. intros a. apply price_ltb_irrefl. Qed.

#[export] Instance price_le_trans : Transitive price_le.
Proof.
  unfold price_le. intros a b c Hab Hbc.
  destruct a, b, c; simpl in *; try done.
  rewrite Z.ltb_ge in *. lia.
Qed.

#[export] Instance price_le_total : Total price_le.
Proof.
  unfold price_le. intros a b.
  destruct a, b; simpl; auto.
  rewrite !Z.ltb_ge. lia.
Qed.

#[export] Instance price_le_antisym : AntiSymm (=) price_le.
Proof. intros a b Hab Hba. by apply price_ltb_total. Qed.

Section SortedFacts.
Context {A : Type} (key : A → price).

#[export] Instance key_le_dec x y : Decision (key_le key x y).
Proof. unfold key_le. apply _. Defined.

#[export] Instance key_le_trans : Transitive (key_le key).
Proof. intros x y z. unfold key_le. apply price_le_trans. Qed.

Lemma insert_by_perm x l : insert_by key x l ≡ₚ x :: l.
Proof.
  induction l as [|y l IH]; simpl; [done|].
  case_match; [|done].
  rewrite IH. apply Permutation_swap.
Qed.

Lemma py_sorted_perm l : py_sorted key l ≡ₚ l.
Proof.
  induction l as [|x l IH]; simpl; [done|].
  by rewrite insert_by_perm, IH.
Qed.

Lemma insert_by_sorted x l :
  StronglySorted (key_le key) l → StronglySorted (key_le key) (insert_by key x l).
Proof.
  induction 1 as [|y l Hl IH Hy]; simpl.
  - repeat constructor.
  - destruct (price_ltb (key y) (key x)) eqn:Hlt.
    + constructor; [done|].
      rewrite insert_by_perm. constructor; [|done].
      unfold key_le, price_le.
      destruct (price_ltb (key x) (key y)) eqn:Hxy; [|done].
      pose proof (price_ltb_trans _ _ _ Hlt Hxy) as Hyy.
      by rewrite price_ltb_irrefl in Hyy.
    + assert (key_le key x y) as Hxy by done.
      constructor; [by constructor|].
      constructor; [done|].
      eapply Forall_impl; [exact Hy|].
      intros z Hz. by trans y.
Qed.

Lemma py_sorted_sorted l : StronglySorted (key_le key) (py_sorted key l).
Proof.
  induction l as [|x l IH]; simpl; [constructor|].
  by apply insert_by_sorted.
Qed.

(** Flights of one price come out in the order they went in. *)
Lemma insert_by_stable p x l :
  filter (λ y, key y = p) (insert_by key x l) = filter (λ y, key y = p) (x :: l).
Proof.
  induction l as [|y l IH]; simpl; [done|].
  destruct (price_ltb (key y) (key x)) eqn:Hlt; [|done].
  rewrite filter_cons, IH, !filter_cons.
  destruct (decide (key y = p)) as [Hy|Hy], (decide (key x = p)) as [Hx|Hx]; try done.
  rewrite Hy, Hx, price_ltb_irrefl in Hlt. done.
Qed.

Lemma py_sorted_stable p l :
  filter (λ y, key y = p) (py_sorted key l) = filter (λ y, key y = p) l.
Proof.
  induction l as [|x l IH]; simpl; [done|].
  by rewrite insert_by_stable, !filter_cons, IH.
Qed.

(** The stable sorted arrangement of a list is unique: two sorted lists
    that hold, for every price, the same flights in the same order are
    equal.  So [py_sorted] is the list [sorted] returns. *)
Lemma stable_sorted_unique l1 l2 :
  StronglySorted (key_le key) l1 → StronglySorted (key_le key) l2 →
  (∀ p, filter (λ y, key y = p) l1 = filter (λ y, key y = p) l2) →
  l1 = l2.
Proof.
  intros H1. revert l2. induction H1 as [|x l1 Hl1 IH Hx]; intros l2 H2 Hsame.
  - destruct l2 as [|y l2]; [done|].
    specialize (Hsame (key y)). rewrite filter_cons_True in Hsame by done. done.
  - destruct H2 as [|y l2 Hl2 Hy].
    { specialize (Hsame (key x)). rewrite filter_cons_True in Hsame by done. done. }
    assert (key x = key y) as Hkey.
    { apply (anti_symm price_le).
      - pose proof (Hsame (key y)) as Hp.
        rewrite (filter_cons_True _ y) in Hp by done.
        assert (y ∈ filter (λ z, key z = key y) (x :: l1)) as Hin by (rewrite Hp; left).
        apply list_elem_of_filter in Hin as [_ [->|Hin]%elem_of_cons]; [done|].
        rewrite Forall_forall in Hx. by apply Hx.
      - pose proof (Hsame (key x)) as Hp.
        rewrite (filter_cons_True _ x) in Hp by done.
        assert (x ∈ filter (λ z, key z = key x) (y :: l2)) as Hin by (rewrite <- Hp; left).
        apply list_elem_of_filter in Hin as [_ [->|Hin]%elem_of_cons]; [done|].
        rewrite Forall_forall in Hy. by apply Hy. }
    pose proof (Hsame (key x)) as Hp.
    rewrite (filter_cons_True _ x), (filter_cons_True _ y) in Hp by done.
    injection Hp as <- Hp. f_equal. apply IH; [done|].
    intros p. destruct (decide (key x = p)) as [<-|Hne]; [done|].
    specialize (Hsame p). by rewrite !filter_cons_False in Hsame.
Qed.

Lemma py_sorted_unique l out :
  StronglySorted (key_le key) out →
  (∀ p, filter (λ y, key y = p) out = filter (λ y, key y = p) l) →
  out = py_sorted key l.
Proof.
  intros Hsorted Hstable. apply stable_sorted_unique; [done|apply py_sorted_sorted|].
  intros p. by rewrite Hstable, py_sorted_stable.
Qed.

(** Sorting a sorted list changes nothing. *)
Lemma py_sorted_id l : Sorted (key_le key) l → py_sorted key l = l.
Proof.
  induction 1 as [|x l Hl IH Hx]; simpl; [done|].
  rewrite IH. destruct Hx as [|y l Hxy]; simpl; [done|].
  by rewrite Hxy.
Qed.
End SortedFacts.

(** ** Reasoning about computations that raise or print *)

Lemma bind_ok_inv {A B} (m : result A) (f : A → result B) b :
  m ≫= f = Ok b → ∃ a, m = Ok a ∧ f a = Ok b.
Proof. destruct m; simpl; [eauto | done]. Qed.

Lemma bind_raise_inv {A B} (m : result A) (f : A → result B) e :
  m ≫= f = Raise e → m = Raise e ∨ ∃ a, m = Ok a ∧ f a = Raise e.
Proof. destruct m; simpl; [eauto | intros [= ->]; auto]. Qed.

Lemma io_bind_ok_inv {A B} (m : io A) (f : A → io B) ev b :
  m ≫= f = IO ev (Ok b) →
  ∃ ev1 a ev2, m = IO ev1 (Ok a) ∧ f a = IO ev2 (Ok b) ∧ ev = ev1 ++ ev2.
Proof.
  destruct m as [ev1 [a|e]]; unfold mbind, io_bind; simpl; [|done].
  destruct (f a) as [ev2 r] eqn:Hf; simpl. intros [= <- ->]. eauto 6.
Qed.

Lemma io_bind_ok {A B} ev (a : A) (f : A → io B) :
  IO ev (Ok a) ≫= f = IO (ev ++ printed (f a)) (outcome (f a)).
Proof. done. Qed.

Lemma io_bind_assoc {A B C} (m : io A) (f : A → io B) (g : B → io C) :
  (m ≫= f) ≫= g = m ≫= (λ a, f a ≫= g).
Proof.
  destruct m as [ev1 [a|e]]; unfold mbind, io_bind; simpl; [|done].
  destruct (f a) as [ev2 [b|e]]; simpl; [|done].
  destruct (g b) as [ev3 r]; simpl. by rewrite (assoc_L (++)).
Qed.

Lemma io_ret_bind {A B} (a : A) (f : A → io B) : lift (Ok a) ≫= f = f a.
Proof. unfold mbind, io_bind. simpl. by destruct (f a). Qed.

(** ** [clean_price] *)

Lemma int_of_str_raise s e : int_of_str s = Raise e → e = ValueError.
Proof. unfold int_of_str. repeat case_match; try done; by intros [= <-]. Qed.

Lemma py_get_raise v k d e : py_get v k d = Raise e → e = AttributeError.
Proof. destruct v; simpl; try done; by intros [= <-]. Qed.

(** The inputs on which [clean_price] raises are the floats without an
    integer value; on every other input it returns. *)
Lemma clean_price_raises v e :
  clean_price v = Raise e ↔
  (∃ s, v = VFloat (S754_infinity s) ∧ e = OverflowError) ∨
  (v = VFloat S754_nan ∧ e = ValueError).
Proof.
  split.
  - destruct v as [| | |x|s| |]; simpl; try done.
    + destruct x; simpl; try done; intros [= <-]; eauto.
    + destruct (int_of_str _) as [z|e'] eqn:Hz; [done|].
      apply int_of_str_raise in Hz as ->. done.
  - intros [(s & -> & ->)|[-> ->]]; done.
Qed.

Lemma clean_price_raise v e :
  clean_price v = Raise e → e = OverflowError ∨ e = ValueError.
Proof. intros [(s & _ & ->)|[_ ->]]%clean_price_raises; auto. Qed.

(** The prices of the scenario of the specification, and one input of each
    other kind. *)
Example clean_price_scenario :
  clean_price <$> [VStr "₹4,500"; VStr "₹4,000"; VInt 5200; VStr "bad"]
  = [Ok (PInt 4500); Ok (PInt 4000); Ok (PInt 5200); Ok PInf].
Proof. reflexivity. Qed.

Example clean_price_other_inputs :
  clean_price <$> [VNone; VBool true; VStr " INR 4,500 "; VStr "4_500"; VStr "";
                   VFloat (S754_finite false 0x11948000000000 (-40));
                   VFloat (S754_finite true 0x11948000000000 (-40));
                   VList []; VDict []]
  = [Ok PInf; Ok (PInt 1); Ok (PInt 4500); Ok (PInt 4500); Ok PInf;
     Ok (PInt 4500); Ok (PInt (-4500)); Ok PInf; Ok PInf].
Proof. reflexivity. Qed.

(** C1 does not hold of the code: on the float [inf], which
    [json.load] reads from [Infinity] or [1e999], [clean_price] does not
    return the sentinel: [int(price_input)] raises [OverflowError], and on
    NaN it raises [ValueError], neither of them inside a [try]. *)
Theorem clean_price_raises_on_infinite_float :
  clean_price (VFloat (S754_infinity false)) = Raise OverflowError ∧
  clean_price (VFloat S754_nan) = Raise ValueError.
Proof. split; reflexivity. Qed.

(** ** [find_direct_flights] *)

Lemma flight_entry_ok_segment su d info :
  flight_entry su (VDict d) = Ok info →
  ∃ x l, dict_lookup "flights" d = Some (VList (x :: l)).
Proof.
  unfold flight_entry, first_segment. simpl.
  destruct (dict_lookup "flights" d) as [[| | | |s|[|x l]|]|]; simpl; try done.
  - destruct (utf8_chars s); simpl; done.
  - eauto.
Qed.

Lemma flight_entry_caught su d e :
  flight_entry su (VDict d) = Raise e → caught e = true →
  first_segment (VDict d) = Raise e.
Proof.
  unfold flight_entry. intros H Hc.
  apply bind_raise_inv in H as [H|(segment & Hs & H)]; [done|].
  exfalso.
  repeat match type of H with
  | _ ≫= _ = Raise _ =>
      let Ha := fresh "Ha" in
      apply bind_raise_inv in H as [H|(? & Ha & H)];
        [first [apply py_get_raise in H | apply clean_price_raise in H as [H|H]];
         subst e; discriminate|]
  end.
  discriminate.
Qed.

Lemma first_segment_raise_no_segments d e :
  first_segment (VDict d) = Raise e → route_segments (VDict d) = [].
Proof.
  unfold first_segment, route_segments. simpl.
  destruct (dict_lookup "flights" d) as [[| | | |s|[|x l]|]|]; simpl; done.
Qed.

Lemma collect_ok su sources acc ev res :
  collect su sources acc = IO ev (Ok res) →
  ∃ met, res = acc ++ met ∧
    Forall2 (λ offer info, flight_entry su offer = Ok info)
            (List.filter direct_with_segment sources) met.
Proof.
  revert acc ev. induction sources as [|flight rest IH]; intros acc ev H; simpl in H.
  - injection H as _ <-. exists []. by rewrite app_nil_r.
  - apply io_bind_ok_inv in H as (ev1 & has & ev2 & Hget & H & ->).
    destruct flight as [| | | | | |d]; try discriminate Hget.
    injection Hget as <- <-.
    cbn [List.filter].
    destruct (truthy (default VNone (dict_lookup "layovers" d))) eqn:Hlay.
    { replace (direct_with_segment (VDict d)) with false
        by (unfold direct_with_segment; simpl; by rewrite Hlay).
      by apply IH in H. }
    destruct (flight_entry su (VDict d)) as [info|e] eqn:Hentry.
    + apply IH in H as (met & -> & HF).
      destruct (flight_entry_ok_segment _ _ _ Hentry) as (x & l & Hx).
      replace (direct_with_segment (VDict d)) with true
        by (unfold direct_with_segment; simpl; by rewrite Hlay, Hx).
      exists (info :: met). rewrite <- (assoc_L (++)). split; [done|].
      by constructor.
    + destruct (caught e) eqn:Hc; [|discriminate H].
      apply io_bind_ok_inv in H as (? & ? & ? & _ & H & ->).
      apply IH in H.
      apply flight_entry_caught in Hentry; [|done].
      replace (direct_with_segment (VDict d)) with false; [done|].
      unfold direct_with_segment.
      rewrite (first_segment_raise_no_segments _ _ Hentry).
      by rewrite andb_false_r.
Qed.

Lemma direct_flights_ok data ev met :
  direct_flights data = IO ev (Ok met) →
  ∃ sources metadata search_url ev',
    gather_sources data = Ok sources ∧
    py_get data "search_metadata" (VDict []) = Ok metadata ∧
    py_get metadata "google_flights_url" VNone = Ok search_url ∧
    collect search_url sources [] = IO ev' (Ok met) ∧
    ev = ReportAnalyzing (length sources) :: ev'.
Proof.
  unfold direct_flights. intros H.
  apply io_bind_ok_inv in H as (? & sources & ? & Hs & H & ->).
  injection Hs as <- Hs.
  apply io_bind_ok_inv in H as (? & [] & ? & Hp & H & ->).
  injection Hp as <-.
  apply io_bind_ok_inv in H as (? & search_url & ev' & Hu & H & ->).
  injection Hu as <- Hu.
  apply bind_ok_inv in Hu as (metadata & Hm & Hu).
  exists sources, metadata, search_url, ev'. done.
Qed.

Lemma find_direct_flights_ok data ev out :
  find_direct_flights (Loaded data) = IO ev (Ok out) →
  ∃ met, direct_flights data = IO ev (Ok met) ∧ out = py_sorted price_value met.
Proof.
  simpl. intros H.
  apply io_bind_ok_inv in H as (ev1 & met & ? & Hd & [= <- <-] & ->).
  exists met. by rewrite app_nil_r.
Qed.

(** On offers of the expected shape the loop returns. *)
Lemma collect_returns su sources acc :
  Forall (λ offer, well_shaped offer = true) sources →
  ∃ ev met, collect su sources acc = IO ev (Ok (acc ++ met)).
Proof.
  intros Hall. revert acc.
  induction Hall as [|offer rest Hshape _ IH]; intros acc; cbn [collect].
  - exists [], []. by rewrite app_nil_r.
  - destruct offer as [| | | | | |d]; try discriminate Hshape.
    change (py_get (VDict d) "layovers" VNone)
      with (Ok (default VNone (dict_lookup "layovers" d))).
    rewrite io_ret_bind.
    assert (∀ info, ∃ ev met,
              collect su rest (acc ++ [info]) = IO ev (Ok (acc ++ met))) as Hadd.
    { intros info. destruct (IH (acc ++ [info])) as (ev & met & ->).
      exists ev, (info :: met). by rewrite <- (assoc_L (++)). }
    assert (∀ e, ∃ ev met,
              (print (ReportSkipping e);; collect su rest acc) = IO ev (Ok (acc ++ met)))
      as Hskip.
    { intros e. destruct (IH acc) as (ev & met & ->).
      exists (ReportSkipping e :: ev), met. reflexivity. }
    simpl in Hshape.
    destruct (truthy (default VNone (dict_lookup "layovers" d))); [apply IH|].
    simpl in Hshape. unfold flight_entry, first_segment. simpl.
    destruct (dict_lookup "flights" d) as [[| | | |s|[|[| | | | | |seg] l]|]|];
      simpl; try discriminate Hshape; try apply Hskip.
    + destruct (utf8_chars s); [apply Hskip | discriminate Hshape].
    + apply andb_prop in Hshape as [[Hdep Harr]%andb_prop Hprice].
      destruct (default (VDict []) (dict_lookup "departure_airport" seg));
        try discriminate Hdep.
      destruct (default (VDict []) (dict_lookup "arrival_airport" seg));
        try discriminate Harr.
      simpl.
      destruct (clean_price (default VNone (dict_lookup "price" d))) as [p|e] eqn:Hp.
      * simpl. apply Hadd.
      * apply clean_price_raises in Hp as [(sg & Hp & _)|[Hp _]];
          rewrite Hp in Hprice; discriminate Hprice.
Qed.

(** A payload that is a record with offers of the expected shape, and
    whose search metadata, if any, is a record, is answered with a list. *)
Lemma find_direct_flights_returns data sources metadata :
  gather_sources data = Ok sources →
  py_get data "search_metadata" (VDict []) = Ok (VDict metadata) →
  Forall (λ offer, well_shaped offer = true) sources →
  ∃ ev out, find_direct_flights (Loaded data) = IO ev (Ok out).
Proof.
  intros Hs Hm Hall. cbn [find_direct_flights]. unfold direct_flights.
  rewrite Hs, io_ret_bind, Hm. cbn [mbind result_bind].
  change (py_get (VDict metadata) "google_flights_url" VNone)
    with (Ok (default VNone (dict_lookup "google_flights_url" metadata))).
  set (su := default VNone _).
  destruct (collect_returns su sources [] Hall) as (ev & met & Hc).
  exists (ReportAnalyzing (length sources) :: ev), (py_sorted price_value met).
  unfold print. rewrite !io_bind_ok. cbn [printed outcome].
  rewrite io_ret_bind, Hc. cbn [printed outcome]. rewrite io_bind_ok.
  cbn. by rewrite app_nil_r.
Qed.

(** C2: whatever [find_direct_flights] returns is in non-decreasing order
    of [price_value], and the flights of one price are in the order in
    which the loop met them. *)
Theorem find_direct_flights_sorted_stable file ev out :
  find_direct_flights file = IO ev (Ok out) →
  StronglySorted (key_le price_value) out ∧
  ∃ met,
    match file with
    | FileNotFound => met = []
    | Loaded data => direct_flights data = IO ev (Ok met)
    end ∧
    out ≡ₚ met ∧
    ∀ p, filter (λ f, price_value f = p) out = filter (λ f, price_value f = p) met.
Proof.
  destruct file as [|data].
  - intros [= <- <-]. split; [constructor|]. by exists [].
  - intros (met & Hd & ->)%find_direct_flights_ok. split.
    + apply py_sorted_sorted.
    + exists met. split; [done|]. split.
      * apply py_sorted_perm.
      * intros p. apply py_sorted_stable.
Qed.

(** C3, amended: when [find_direct_flights] returns, its flights are, up to the
    sort, one complete entry for each offer without layover indicator and
    with a route segment, in the order of the offers, and nothing else: an
    offer with a non-empty layover indicator or without segment adds
    nothing. *)
Theorem one_flight_per_direct_offer data ev out :
  find_direct_flights (Loaded data) = IO ev (Ok out) →
  ∃ sources metadata search_url met,
    gather_sources data = Ok sources ∧
    py_get data "search_metadata" (VDict []) = Ok metadata ∧
    py_get metadata "google_flights_url" VNone = Ok search_url ∧
    Forall2 (λ offer info, flight_entry search_url offer = Ok info)
            (List.filter direct_with_segment sources) met ∧
    out = py_sorted price_value met ∧
    length out = length (List.filter direct_with_segment sources).
Proof.
  intros (met & Hd & ->)%find_direct_flights_ok.
  apply direct_flights_ok in Hd
    as (sources & metadata & search_url & ev' & Hs & Hm & Hu & Hc & _).
  apply collect_ok in Hc as (met' & -> & HF). simpl in *.
  exists sources, metadata, search_url, met'. repeat split; try done.
  rewrite (py_sorted_perm _ met'). symmetry. by eapply Forall2_length.
Qed.

(** C3 fails without the proviso that the call returns: an offer without
    layovers and with a segment whose airport is a text makes the call raise
    [AttributeError], so that neither it nor the good offer before it
    gives a flight. *)
Lemma direct_offer_can_abort :
  direct_with_segment (Examples.offer "A" "A 101" (VInt 4500)) = true ∧
  direct_with_segment text_airport_offer = true ∧
  find_direct_flights (Loaded text_airport_payload)
  = IO [ReportAnalyzing 2] (Raise AttributeError).
Proof. repeat split. Qed.

Lemma collect_app su l1 l2 acc :
  collect su (l1 ++ l2) acc = collect su l1 acc ≫= collect su l2.
Proof.
  revert acc. induction l1 as [|flight rest IH]; intros acc; cbn [collect app].
  - symmetry. apply (io_ret_bind acc).
  - rewrite io_bind_assoc.
    destruct (py_get flight "layovers" VNone) as [has|e]; [|done].
    rewrite !io_ret_bind.
    destruct (truthy has); [apply IH|].
    destruct (flight_entry su flight) as [info|e]; [apply IH|].
    destruct (caught e); [|done].
    rewrite io_bind_assoc. unfold print. rewrite !io_bind_ok. by rewrite IH.
Qed.

Lemma collect_malformed su bad rest acc e :
  malformed bad e →
  collect su (bad :: rest) acc = (print (ReportSkipping e);; collect su rest acc).
Proof.
  intros ([d ->] & Hlay & Hseg & He). simpl in Hlay.
  cbn [collect].
  change (py_get (VDict d) "layovers" VNone)
    with (Ok (default VNone (dict_lookup "layovers" d))).
  rewrite io_ret_bind, Hlay.
  unfold flight_entry. rewrite Hseg.
  by destruct He as [-> | ->].
Qed.

(** C8, amended: an offer that is a record without layovers and whose
    ['flights'] entry is missing ([KeyError]) or has no first element
    ([IndexError]) is passed over with one report, and the offers after it
    are processed with the flights found so far. *)
Theorem malformed_offer_skipped su before bad after acc e :
  malformed bad e →
  collect su (before ++ bad :: after) acc =
  collect su before acc ≫= (λ found,
    print (ReportSkipping e);; collect su after found).
Proof.
  intros Hbad. rewrite collect_app.
  destruct (collect su before acc) as [ev [found|e']]; [|done].
  rewrite !io_bind_ok. by rewrite (collect_malformed _ _ _ _ _ Hbad).
Qed.

Lemma malformed_offer_skipped_witness :
  malformed (VDict [("price", VInt 1)]) KeyError ∧
  collect VNone ([Examples.offer "A" "A 101" (VInt 4500)]
                   ++ VDict [("price", VInt 1)] :: [Examples.offer "B" "B 202" (VInt 4000)]) [] =
  collect VNone [Examples.offer "A" "A 101" (VInt 4500)] [] ≫= (λ found,
    print (ReportSkipping KeyError);;
    collect VNone [Examples.offer "B" "B 202" (VInt 4000)] found).
Proof.
  assert (malformed (VDict [("price", VInt 1)]) KeyError) as H.
  { split; [by eexists|]. split; [reflexivity|]. split; [reflexivity|]. by left. }
  split; [exact H|].
  exact (malformed_offer_skipped VNone [Examples.offer "A" "A 101" (VInt 4500)]
           (VDict [("price", VInt 1)]) [Examples.offer "B" "B 202" (VInt 4000)]
           [] KeyError H).
Defined.

(** C8 as stated fails: an offer with [null] for its segments raises
    [TypeError], which the [except] clause does not name; the call ends
    there, with no report and the next offer unread. *)
Lemma wrongly_shaped_offer_aborts :
  find_direct_flights (Loaded Examples.wrongly_shaped_payload) =
  IO [ReportAnalyzing 2] (Raise TypeError).
Proof. reflexivity. Qed.

(** The uncaught [OverflowError] of [clean_price] ends the call as well. *)
Example infinite_price_aborts :
  find_direct_flights (Loaded Examples.infinite_price_payload) =
  IO [ReportAnalyzing 2] (Raise OverflowError).
Proof. reflexivity. Qed.

(** ** The source of the offers *)

Lemma scan_values_first d :
  (∃ skipped k l rest,
      d = skipped ++ (k, VList l) :: rest ∧
      Forall (λ kv : string * pyval, looks_like_flights kv.2 = false) skipped ∧
      looks_like_flights (VList l) = true ∧
      scan_values d.*2 [] = l) ∨
  (Forall (λ kv : string * pyval, looks_like_flights kv.2 = false) d ∧ scan_values d.*2 [] = []).
Proof.
  induction d as [|[k v] d IH]; simpl.
  - right. by split.
  - destruct (looks_like_flights v) eqn:Hv.
    + left. destruct v as [| | | | |l|]; try discriminate Hv.
      exists [], k, l, d. by repeat split.
    + destruct IH as [(skipped & k' & l & rest & -> & Hsk & Hl & Hscan)|[Hall Hscan]].
      * left. exists ((k, v) :: skipped), k', l, rest.
        repeat split; try done. by constructor.
      * right. split; [by constructor | done].
Qed.

(** C9, amended: the top-level values are scanned exactly when the two
    well-known groupings yield no offer at all (they are absent, or
    present and empty); the offers are then those of the first value that
    is a non-empty list starting with a record with a ['flights'] key, and
    of no other value. *)
Theorem gather_sources_fallback data sources :
  gather_sources data = Ok sources →
  ∃ known, known_sources data = Ok known ∧
    ((known ≠ [] ∧ sources = known) ∨
     (known = [] ∧ ∃ d, data = VDict d ∧
        ((∃ skipped k l rest,
            d = skipped ++ (k, VList l) :: rest ∧
            Forall (λ kv : string * pyval, looks_like_flights kv.2 = false) skipped ∧
            looks_like_flights (VList l) = true ∧
            sources = l) ∨
         (Forall (λ kv : string * pyval, looks_like_flights kv.2 = false) d ∧ sources = [])))).
Proof.
  unfold gather_sources. intros (known & Hk & H)%bind_ok_inv.
  exists known. split; [done|].
  destruct known as [|o known].
  - right. split; [done|].
    apply bind_ok_inv in H as (vals & Hv & [= <-]).
    destruct data as [| | | | | |d]; try discriminate Hv.
    injection Hv as <-. exists d. split; [done|].
    destruct (scan_values_first d) as [(sk & k & l & rest & ? & ? & ? & ?)|[? ?]];
      [left; exists sk, k, l, rest | right]; done.
  - left. by injection H as <-.
Qed.

Lemma gather_sources_fallback_witness :
  gather_sources Examples.empty_grouping_payload
    = Ok [Examples.offer "A" "A 101" (VInt 4500)] ∧
  ∃ known, known_sources Examples.empty_grouping_payload = Ok known ∧
    ((known ≠ [] ∧ [Examples.offer "A" "A 101" (VInt 4500)] = known) ∨
     (known = [] ∧ ∃ d, Examples.empty_grouping_payload = VDict d ∧
        ((∃ skipped k l rest,
            d = skipped ++ (k, VList l) :: rest ∧
            Forall (λ kv : string * pyval, looks_like_flights kv.2 = false) skipped ∧
            looks_like_flights (VList l) = true ∧
            [Examples.offer "A" "A 101" (VInt 4500)] = l) ∨
         (Forall (λ kv : string * pyval, looks_like_flights kv.2 = false) d ∧
          [Examples.offer "A" "A 101" (VInt 4500)] = [])))).
Proof.
  split; [reflexivity|].
  apply (gather_sources_fallback Examples.empty_grouping_payload). reflexivity.
Defined.

(** C9 as stated fails: with a well-known grouping present but empty, the
    offers are taken from another top-level list. *)
Lemma fallback_with_grouping_present :
  grouping_present Examples.empty_grouping_payload = true ∧
  known_sources Examples.empty_grouping_payload = Ok [] ∧
  gather_sources Examples.empty_grouping_payload
    = Ok [Examples.offer "A" "A 101" (VInt 4500)].
Proof. repeat split. Qed.

(** ** The recommendations *)

Lemma sublist_elem_of {A} (l1 l2 : list A) x : sublist l1 l2 → x ∈ l1 → x ∈ l2.
Proof.
  induction 1 as [|y l1 l2 _ IH|y l1 l2 _ IH]; [done| |].
  - rewrite !elem_of_cons. intros [->|Hx]; [by left | right; auto].
  - rewrite elem_of_cons. auto.
Qed.

Lemma sublist_StronglySorted {A} (R : relation A) (l1 l2 : list A) :
  sublist l1 l2 → StronglySorted R l2 → StronglySorted R l1.
Proof.
  induction 1 as [|y l1 l2 Hs IH|y l1 l2 Hs IH]; [done| |].
  - intros [Hl Hy]%StronglySorted_inv. constructor; [auto|].
    rewrite Forall_forall in *. eauto using sublist_elem_of.
  - intros [Hl _]%StronglySorted_inv. auto.
Qed.

Lemma flight_numbers_snoc (l : list flight) f :
  flight_numbers (l ++ [f]) = flight_numbers l ∪ {[flight_number f]}.
Proof.
  unfold flight_numbers. rewrite fmap_app.
  exact (list_to_set_snoc_L (flight_number <$> l) (flight_number f)).
Qed.

Lemma elem_of_flight_numbers (l : list flight) x :
  x ∈ flight_numbers l ↔ x ∈ flight_number <$> l.
Proof. unfold flight_numbers. apply elem_of_list_to_set. Qed.

(** The dictionary holds, in the order of the list, the first flight of
    each airline under the name of the airline. *)
Lemma unique_airlines_spec flights unique :
  ∃ ext, unique_airlines flights unique = unique ++ ext ∧
    sublist ext.*2 flights ∧
    Forall (λ kf : string * flight, kf.1 = airline kf.2) ext ∧
    (NoDup unique.*1 → NoDup (unique ++ ext).*1) ∧
    (∀ f rest, flights = f :: rest → unique = [] → ∃ ext', ext = (airline f, f) :: ext').
Proof.
  revert unique. induction flights as [|f rest IH]; intros unique; simpl.
  - exists []. rewrite app_nil_r. repeat split; done.
  - case_bool_decide as Hin.
    + destruct (IH unique) as (ext & -> & Hsub & Hkey & Hnd & _).
      exists ext. repeat split; try done.
      * by constructor.
      * intros ? ? _ ->. by apply elem_of_nil in Hin.
    + destruct (IH (unique ++ [(airline f, f)])) as (ext & -> & Hsub & Hkey & Hnd & _).
      exists ((airline f, f) :: ext). rewrite <- (assoc_L (++)). repeat split.
      * by constructor.
      * by constructor.
      * intros Hu.
        replace (unique ++ (airline f, f) :: ext)
          with ((unique ++ [(airline f, f)]) ++ ext)
          by (by rewrite <- (assoc_L (++))).
        apply Hnd.
        rewrite fmap_app. apply NoDup_app. repeat split; [done| |apply NoDup_singleton].
        intros x Hx Hx'. simpl in Hx'. apply list_elem_of_singleton in Hx' as ->. done.
      * intros ? ? [= <- <-] _. eauto.
Qed.

Lemma diverse_flights_perm flights :
  ∃ firsts, diverse_flights flights = py_sorted price_value firsts ∧
    sublist firsts flights ∧ NoDup (airline <$> firsts) ∧
    (∀ f rest, flights = f :: rest → ∃ firsts', firsts = f :: firsts').
Proof.
  unfold diverse_flights.
  destruct (unique_airlines_spec flights []) as (ext & -> & Hsub & Hkey & Hnd & Hhd).
  simpl. exists ext.*2. repeat split; try done.
  - replace (airline <$> ext.*2) with ext.*1; [apply Hnd; constructor|].
    clear -Hkey. induction Hkey as [|[k f] ext Hk _ IH]; [done|].
    cbn. f_equal; [exact Hk | exact IH].
  - intros f rest Hfl. destruct (Hhd f rest Hfl eq_refl) as (ext' & ->).
    simpl. eauto.
Qed.

(** What the second loop appends: flights of the list, in its order, whose
    numbers differ from one another and from the numbers selected before. *)
Lemma fill_spec max_picks flights chosen :
  ∃ ext, fill max_picks flights chosen (flight_numbers chosen) = chosen ++ ext ∧
    sublist ext flights ∧
    NoDup (flight_number <$> ext) ∧
    (∀ g, g ∈ ext → flight_number g ∉ flight_number <$> chosen).
Proof.
  revert chosen. induction flights as [|f rest IH]; intros chosen; simpl.
  - exists []. rewrite app_nil_r. repeat split; try done; [constructor|].
    intros g Hg. by apply elem_of_nil in Hg.
  - case_bool_decide as Hseen.
    + destruct (IH chosen) as (ext & -> & Hsub & Hnd & Hnew).
      exists ext. repeat split; try done. by constructor.
    + rewrite elem_of_flight_numbers in Hseen.
      case_bool_decide as Hfull.
      * exists [f]. repeat split.
        -- apply sublist_skip, sublist_nil_l.
        -- apply NoDup_singleton.
        -- by intros g ->%list_elem_of_singleton.
      * rewrite <- flight_numbers_snoc.
        destruct (IH (chosen ++ [f])) as (ext & -> & Hsub & Hnd & Hnew).
        exists (f :: ext). rewrite <- (assoc_L (++)). repeat split.
        -- by constructor.
        -- simpl. apply NoDup_cons. split; [|done].
           intros (g & Hfg & Hg)%list_elem_of_fmap.
           apply (Hnew g Hg). rewrite fmap_app, elem_of_app. right.
           rewrite <- Hfg. simpl. by apply list_elem_of_singleton.
        -- intros g [->|Hg]%elem_of_cons; [done|].
           intros Hin. apply (Hnew g Hg). rewrite fmap_app, elem_of_app. by left.
Qed.

(** The loop stops at [max_picks] flights, or runs out of flight numbers. *)
Lemma fill_length max_picks flights chosen :
  length chosen < max_picks →
  let filled := fill max_picks flights chosen (flight_numbers chosen) in
  length filled = max_picks ∨
  (length filled < max_picks ∧
   ∀ f, f ∈ flights → flight_number f ∈ flight_number <$> filled).
Proof.
  revert chosen. induction flights as [|f rest IH]; intros chosen Hlen; simpl.
  - right. split; [done|]. intros f Hf. by apply elem_of_nil in Hf.
  - case_bool_decide as Hseen.
    + destruct (IH chosen Hlen) as [Hfull|[Hshort Hall]]; [by left|].
      right. split; [done|]. intros g [->|Hg]%elem_of_cons; [|auto].
      rewrite elem_of_flight_numbers in Hseen.
      destruct (fill_spec max_picks rest chosen) as (ext & -> & _).
      rewrite fmap_app, elem_of_app. by left.
    + case_bool_decide as Hfull.
      * left. rewrite length_app in *. simpl in *. lia.
      * rewrite <- flight_numbers_snoc.
        assert (length (chosen ++ [f]) < max_picks) as Hlen' by lia.
        destruct (IH _ Hlen') as [?|[Hshort Hall]]; [by left|].
        right. split; [done|]. intros g [->|Hg]%elem_of_cons; [|auto].
        destruct (fill_spec max_picks rest (chosen ++ [f])) as (ext & -> & _).
        rewrite !fmap_app, !elem_of_app. left. right.
        simpl. by apply list_elem_of_singleton.
Qed.

Lemma size_list_to_set_le (l : list string) :
  size (list_to_set l : gset string) ≤ length l.
Proof.
  apply submseteq_length, NoDup_submseteq; [apply NoDup_elements|].
  intros x. by rewrite elem_of_elements, elem_of_list_to_set.
Qed.

Lemma NoDup_numbers (l : list flight) :
  NoDup (airline <$> l) →
  (∀ f g, f ∈ l → g ∈ l → flight_number f = flight_number g → airline f = airline g) →
  NoDup (flight_number <$> l).
Proof.
  induction l as [|f l IH]; simpl; [constructor|].
  rewrite !NoDup_cons. intros [Hf Hl] Hsame. split.
  - intros (g & Hfg & Hg)%list_elem_of_fmap. apply Hf.
    rewrite (Hsame f g); [by apply list_elem_of_fmap_2 | left | by right | done].
  - apply IH; [done|]. intros g h Hg Hh. apply Hsame; by right.
Qed.

Lemma recommend_ok_inv flights max_picks tol rec alts :
  recommend flights max_picks tol = Ok (rec, alts) →
  (flights = [] ∧ rec = [] ∧ alts = []) ∨
  ∃ f rest thr, flights = f :: rest ∧
    threshold (price_value f) tol = Ok thr ∧
    rec = recommended flights max_picks ∧
    alts = alt_candidates flights rec thr.
Proof.
  destruct flights as [|f rest]; simpl.
  - intros [= <- <-]. by left.
  - intros (thr & Hthr & [= <- <-])%bind_ok_inv. right. by exists f, rest, thr.
Qed.

Lemma recommended_NoDup flights max_picks :
  (∀ f g, f ∈ flights → g ∈ flights →
          flight_number f = flight_number g → airline f = airline g) →
  NoDup (flight_number <$> recommended flights max_picks).
Proof.
  intros Hsame. unfold recommended.
  destruct (diverse_flights_perm flights) as (firsts & Hd & Hsub & Hnd & _).
  assert (NoDup (flight_number <$> take max_picks (diverse_flights flights))) as Hchosen.
  { eapply sublist_NoDup; [|apply fmap_sublist, sublist_take].
    rewrite Hd, py_sorted_perm. apply NoDup_numbers; [done|].
    intros f g Hf Hg. apply Hsame; by eapply sublist_elem_of. }
  case_bool_decide; [|done].
  destruct (fill_spec max_picks flights (take max_picks (diverse_flights flights)))
    as (ext & -> & _ & Hext & Hnew).
  rewrite fmap_app. apply NoDup_app. repeat split; [done| |done].
  intros x Hx (g & -> & Hg)%list_elem_of_fmap. by apply (Hnew g Hg).
Qed.

Lemma diverse_flights_length flights :
  length (diverse_flights flights) ≤ size (list_to_set (airline <$> flights) : gset string).
Proof.
  destruct (diverse_flights_perm flights) as (firsts & -> & Hsub & Hnd & _).
  rewrite py_sorted_perm, <- (length_fmap airline), <- (size_list_to_set (C:=gset string)) by done.
  apply subseteq_size. intros x. rewrite !elem_of_list_to_set.
  intros (f & -> & Hf)%list_elem_of_fmap.
  apply list_elem_of_fmap_2. by eapply sublist_elem_of.
Qed.

Lemma minimum_price_sorted f rest :
  Sorted (key_le price_value) (f :: rest) →
  minimum_price (f :: rest) = Some (price_value f).
Proof.
  intros [_ Hall]%(Sorted_StronglySorted _)%StronglySorted_inv. simpl. f_equal.
  induction Hall as [|g rest Hg _ IH]; simpl; [done|].
  rewrite IH. unfold price_min.
  destruct (price_ltb (price_value f) (price_value g)) eqn:Hlt; [done|].
  by apply price_ltb_total.
Qed.

Lemma recommended_head f rest max_picks :
  Sorted (key_le price_value) (f :: rest) → 1 ≤ max_picks →
  head (recommended (f :: rest) max_picks) = Some f.
Proof.
  intros Hsorted Hpicks. unfold recommended.
  destruct (diverse_flights_perm (f :: rest)) as (firsts & -> & Hsub & _ & Hhd).
  destruct (Hhd f rest eq_refl) as (firsts' & ->).
  rewrite py_sorted_id.
  2:{ apply StronglySorted_Sorted. eapply sublist_StronglySorted; [done|].
      by apply (Sorted_StronglySorted _). }
  destruct max_picks as [|n]; [lia|]. cbn [take].
  case_bool_decide; [|done].
  destruct (fill_spec (S n) (f :: rest) (f :: take n firsts')) as (ext & -> & _).
  done.
Qed.

(** C4, amended: when flights with the same flight number are of the same
    airline, no flight number occurs twice in the recommended list; and in
    every case no flight number of the recommended list occurs in the
    alternatives. *)
Theorem recommended_without_duplicates flights max_picks tol rec alts :
  recommend flights max_picks tol = Ok (rec, alts) →
  ((∀ f g, f ∈ flights → g ∈ flights →
           flight_number f = flight_number g → airline f = airline g) →
   NoDup (flight_number <$> rec)) ∧
  (∀ a, a ∈ alts → flight_number a ∉ flight_number <$> rec).
Proof.
  intros [(-> & -> & ->)|(f & rest & thr & Hfl & _ & -> & ->)]%recommend_ok_inv.
  - split; [constructor|]. intros a Ha. by apply elem_of_nil in Ha.
  - split; [apply recommended_NoDup|].
    intros a Ha%list_elem_of_In%filter_In. destruct Ha as [_ Ha].
    apply andb_prop in Ha as [_ Ha]. apply negb_true_iff in Ha.
    apply bool_decide_eq_false in Ha. by rewrite elem_of_flight_numbers in Ha.
Qed.

Lemma recommended_without_duplicates_witness :
  recommend Examples.sample_flights 3 Examples.tol5
  = Ok ([Examples.fl "B" "B 202" (PInt 4000); Examples.fl "A" "A 101" (PInt 4200);
         Examples.fl "C" "C 404" PInf],
        [Examples.fl "B" "B 204" (PInt 4100)]) ∧
  NoDup ["B 202"; "A 101"; "C 404"] ∧
  (∀ a, a ∈ [Examples.fl "B" "B 204" (PInt 4100)] →
        flight_number a ∉ ["B 202"; "A 101"; "C 404"]).
Proof.
  assert (recommend Examples.sample_flights 3 Examples.tol5
          = Ok ([Examples.fl "B" "B 202" (PInt 4000); Examples.fl "A" "A 101" (PInt 4200);
                 Examples.fl "C" "C 404" PInf],
                [Examples.fl "B" "B 204" (PInt 4100)])) as H by (vm_compute; reflexivity).
  split; [exact H|].
  destruct (recommended_without_duplicates _ _ _ _ _ H) as [Hnd Halt].
  split; [|exact Halt].
  apply Hnd. intros f g Hf Hg.
  unfold Examples.sample_flights in Hf, Hg.
  repeat (apply elem_of_cons in Hf as [->|Hf]); [..|by apply elem_of_nil in Hf];
    repeat (apply elem_of_cons in Hg as [->|Hg]); try (by apply elem_of_nil in Hg);
    simpl; intros; done.
Defined.

(** C4 as stated fails: two airlines whose flights both carry the default
    number ['N/A'] are both recommended. *)
Lemma recommended_repeats_shared_number :
  Sorted (key_le price_value) Examples.shared_number_flights ∧
  recommend Examples.shared_number_flights 3 Examples.tol5
  = Ok (Examples.shared_number_flights, []) ∧
  ¬ NoDup (flight_number <$> Examples.shared_number_flights).
Proof.
  split; [repeat first [constructor | done]|].
  split; [vm_compute; reflexivity|].
  simpl. rewrite NoDup_cons. intros [Hn _]. apply Hn. by left.
Qed.

(** C5, amended: when the flights carry at least [max_picks] different
    flight numbers and fewer than [max_picks] airlines, the recommended
    list has exactly [max_picks] entries: the picks per airline, followed by
    flights of the list, in its order, whose numbers differ from one
    another and from those of the picks. *)
Theorem recommended_backfilled flights max_picks tol rec alts :
  size (list_to_set (airline <$> flights) : gset string) < max_picks →
  max_picks ≤ size (flight_numbers flights) →
  recommend flights max_picks tol = Ok (rec, alts) →
  length rec = max_picks ∧
  ∃ ext, rec = diverse_flights flights ++ ext ∧
    sublist ext flights ∧
    NoDup (flight_number <$> ext) ∧
    (∀ g, g ∈ ext → flight_number g ∉ flight_number <$> diverse_flights flights).
Proof.
  intros Hair Hnum [(-> & -> & ->)|(f & rest & thr & _ & _ & -> & _)]%recommend_ok_inv.
  { assert (size (flight_numbers []) = 0) as E by reflexivity.
    rewrite E in Hnum. lia. }
  pose proof (diverse_flights_length flights) as Hdiv.
  unfold recommended. rewrite take_ge by lia.
  rewrite bool_decide_eq_true_2 by lia.
  split.
  - destruct (fill_length max_picks flights (diverse_flights flights)) as [?|[Hshort Hall]];
      [lia|done|].
    exfalso. set (filled := fill _ _ _ _) in *.
    assert (size (flight_numbers flights) ≤ length filled); [|lia].
    etrans; [|rewrite <- (length_fmap flight_number); apply size_list_to_set_le].
    apply subseteq_size. intros x. unfold flight_numbers.
    rewrite !elem_of_list_to_set. intros (g & -> & Hg)%list_elem_of_fmap. auto.
  - destruct (fill_spec max_picks flights (diverse_flights flights)) as (ext & -> & ?).
    by exists ext.
Qed.

Lemma recommended_backfilled_witness :
  size (list_to_set (airline <$> Examples.sample_flights) : gset string) < 4 ∧
  4 ≤ size (flight_numbers Examples.sample_flights) ∧
  recommend Examples.sample_flights 4 Examples.tol5
  = Ok ([Examples.fl "B" "B 202" (PInt 4000); Examples.fl "A" "A 101" (PInt 4200);
         Examples.fl "C" "C 404" PInf; Examples.fl "B" "B 204" (PInt 4100)], []) ∧
  length [Examples.fl "B" "B 202" (PInt 4000); Examples.fl "A" "A 101" (PInt 4200);
          Examples.fl "C" "C 404" PInf; Examples.fl "B" "B 204" (PInt 4100)] = 4 ∧
  ∃ ext,
    [Examples.fl "B" "B 202" (PInt 4000); Examples.fl "A" "A 101" (PInt 4200);
     Examples.fl "C" "C 404" PInf; Examples.fl "B" "B 204" (PInt 4100)]
    = diverse_flights Examples.sample_flights ++ ext ∧
    sublist ext Examples.sample_flights ∧
    NoDup (flight_number <$> ext) ∧
    (∀ g, g ∈ ext →
          flight_number g ∉ flight_number <$> diverse_flights Examples.sample_flights).
Proof.
  assert (size (list_to_set (airline <$> Examples.sample_flights) : gset string) < 4)
    as Hair by (vm_compute; lia).
  assert (4 ≤ size (flight_numbers Examples.sample_flights))
    as Hnum by (vm_compute; lia).
  assert (recommend Examples.sample_flights 4 Examples.tol5
          = Ok ([Examples.fl "B" "B 202" (PInt 4000); Examples.fl "A" "A 101" (PInt 4200);
                 Examples.fl "C" "C 404" PInf; Examples.fl "B" "B 204" (PInt 4100)], []))
    as H by (vm_compute; reflexivity).
  split; [exact Hair|]. split; [exact Hnum|]. split; [exact H|].
  exact (recommended_backfilled _ _ _ _ _ Hair Hnum H).
Defined.

(** C5 as stated fails: three flights of one airline that all carry the
    number ['N/A'] give one recommendation where three are asked for. *)
Lemma backfill_runs_out_of_numbers :
  Sorted (key_le price_value) Examples.repeated_number_flights ∧
  3 ≤ length Examples.repeated_number_flights ∧
  size (list_to_set (airline <$> Examples.repeated_number_flights) : gset string) < 3 ∧
  recommend Examples.repeated_number_flights 3 Examples.tol5
  = Ok ([Examples.fl "A" "N/A" (PInt 4000)], []).
Proof.
  split; [repeat first [constructor | done]|].
  split; [simpl; lia|].
  split; [vm_compute; lia|].
  vm_compute; reflexivity.
Qed.

(** C6, amended: on a non-empty list sorted by price, the alternatives are the
    flights, in the order of the list, whose flight number is not a
    recommended one and whose price is at most the threshold the code
    computes: the smallest price of the list as a binary64 number, times
    the binary64 sum [1 + tolerance_pct], each operation rounded to the
    nearest binary64 number; an int price is compared with it exactly. *)
Theorem alternatives_within_tolerance flights max_picks tol rec alts :
  flights ≠ [] →
  Sorted (key_le price_value) flights →
  recommend flights max_picks tol = Ok (rec, alts) →
  ∃ cheapest c thr,
    minimum_price flights = Some cheapest ∧
    threshold cheapest tol = Ok thr ∧
    match cheapest with
    | PInt z => float_of_int z = Ok c
    | PInf => c = S754_infinity false
    end ∧
    thr = SFmul prec emax c (SFadd prec emax one tol) ∧
    alts = List.filter
             (λ f, price_le_float (price_value f) thr
                   && negb (bool_decide (flight_number f ∈ flight_number <$> rec)))
             flights.
Proof.
  intros Hne Hsorted [(-> & _)|(f & rest & thr & -> & Hthr & -> & ->)]%recommend_ok_inv;
    [done|].
  assert (∃ c, match price_value f with
               | PInt z => float_of_int z = Ok c
               | PInf => c = S754_infinity false
               end ∧ thr = SFmul prec emax c (SFadd prec emax one tol)) as (c & Hc & Hmul).
  { unfold threshold in Hthr. destruct (price_value f) as [z|].
    - apply bind_ok_inv in Hthr as (c & Hc & [= <-]). by exists c.
    - injection Hthr as <-. by eexists. }
  exists (price_value f), c, thr. split; [by apply minimum_price_sorted|].
  split; [done|]. split; [done|]. split; [done|].
  unfold alt_candidates. apply List.filter_ext. intros g. do 2 f_equal.
  apply bool_decide_ext, elem_of_flight_numbers.
Qed.

Lemma alternatives_within_tolerance_witness :
  recommend Examples.sample_flights 2 Examples.tol5
  = Ok ([Examples.fl "B" "B 202" (PInt 4000); Examples.fl "A" "A 101" (PInt 4200)],
        [Examples.fl "B" "B 204" (PInt 4100)]) ∧
  ∃ cheapest c thr,
    minimum_price Examples.sample_flights = Some cheapest ∧
    threshold cheapest Examples.tol5 = Ok thr ∧
    match cheapest with
    | PInt z => float_of_int z = Ok c
    | PInf => c = S754_infinity false
    end ∧
    thr = SFmul prec emax c (SFadd prec emax one Examples.tol5) ∧
    [Examples.fl "B" "B 204" (PInt 4100)]
    = List.filter
        (λ f, price_le_float (price_value f) thr
              && negb (bool_decide
                         (flight_number f ∈
                          flight_number <$> [Examples.fl "B" "B 202" (PInt 4000);
                                             Examples.fl "A" "A 101" (PInt 4200)])))
        Examples.sample_flights.
Proof.
  assert (recommend Examples.sample_flights 2 Examples.tol5
          = Ok ([Examples.fl "B" "B 202" (PInt 4000); Examples.fl "A" "A 101" (PInt 4200)],
                [Examples.fl "B" "B 204" (PInt 4100)])) as H by (vm_compute; reflexivity).
  split; [exact H|].
  refine (alternatives_within_tolerance _ _ _ _ _ _ _ H).
  - discriminate.
  - repeat first [constructor | done].
Defined.

(** C6 fails when the product is read in exact arithmetic: with the slider
    at 13 and 5000 as the cheapest price, the flight at 5650, which is not
    recommended and within [5000 * (1 + tolerance_pct)], is no alternative:
    the binary64 product is just below 5650. *)
Lemma alternative_at_exact_bound_left_out :
  Sorted (key_le price_value) boundary_flights ∧
  streamlit_search boundary_flights 13 1
  = Ok ([Examples.fl "A" "A 101" (PInt 5000)], []) ∧
  recommend boundary_flights 1 slider_13
  = Ok ([Examples.fl "A" "A 101" (PInt 5000)], []) ∧
  minimum_price boundary_flights = Some (PInt 5000) ∧
  Examples.fl "B" "B 202" (PInt 5650) ∈ boundary_flights ∧
  exact_within 5650 5000 slider_13 = true ∧
  "B 202" ∉ flight_number <$> [Examples.fl "A" "A 101" (PInt 5000)].
Proof.
  split; [repeat first [constructor | done]|].
  split; [vm_compute; reflexivity|]. split; [vm_compute; reflexivity|].
  split; [reflexivity|]. split; [by right; left|]. split; [vm_compute; reflexivity|].
  simpl. intros H%list_elem_of_singleton. discriminate H.
Qed.

(** The threshold is a binary64 number: 5% over 4000 is 4200, and 15%
    over 100 is the float just below 115. *)
Example threshold_binary64 :
  threshold (PInt 4000) Examples.tol5 = Ok (S754_finite false 4617948836659200 (-40)) ∧
  price_le_float (PInt 4200) (S754_finite false 4617948836659200 (-40)) = true ∧
  price_le_float (PInt 4201) (S754_finite false 4617948836659200 (-40)) = false ∧
  threshold (PInt 100) Examples.tol15 = Ok (S754_finite false 8092405580431359 (-46)) ∧
  price_le_float (PInt 115) (S754_finite false 8092405580431359 (-46)) = false ∧
  threshold PInf Examples.tol5 = Ok (S754_infinity false) ∧
  threshold (PInt (2 ^ 1024)) Examples.tol5 = Raise OverflowError.
Proof. repeat split; vm_compute; reflexivity. Qed.

(** C7: on the empty list [recommend] returns two empty lists and raises
    nothing; the cheapest price, which does not exist for an empty list, is
    not asked for. *)
Theorem recommend_empty max_picks tol :
  recommend [] max_picks tol = Ok ([], []) ∧
  cheapest_price [] = Raise IndexError.
Proof. split; reflexivity. Qed.

(** C10: on a non-empty list sorted by price and with [max_picks] at least
    1, the first recommended flight is the first flight of the list. *)
Theorem cheapest_flight_first f rest max_picks tol rec alts :
  Sorted (key_le price_value) (f :: rest) →
  1 ≤ max_picks →
  recommend (f :: rest) max_picks tol = Ok (rec, alts) →
  head rec = Some f.
Proof.
  intros Hsorted Hpicks [(? & _)|(? & ? & ? & _ & _ & -> & _)]%recommend_ok_inv; [done|].
  by apply recommended_head.
Qed.

Lemma cheapest_flight_first_witness :
  recommend Examples.sample_flights 1 Examples.tol5
  = Ok ([Examples.fl "B" "B 202" (PInt 4000)],
        [Examples.fl "B" "B 204" (PInt 4100); Examples.fl "A" "A 101" (PInt 4200)]) ∧
  head [Examples.fl "B" "B 202" (PInt 4000)] = Some (Examples.fl "B" "B 202" (PInt 4000)).
Proof.
  assert (recommend Examples.sample_flights 1 Examples.tol5
          = Ok ([Examples.fl "B" "B 202" (PInt 4000)],
                [Examples.fl "B" "B 204" (PInt 4100); Examples.fl "A" "A 101" (PInt 4200)]))
    as H by (vm_compute; reflexivity).
  split; [exact H|].
  refine (cheapest_flight_first _ _ _ _ _ _ _ _ H).
  - repeat first [constructor | done].
  - lia.
Defined.

(** ** The sample payload *)

(** The scenario of the specification, from the payload to the
    recommendations of [agent.py]. *)
Example sample_recommendations :
  find_direct_flights (Loaded Examples.sample_payload)
  = IO Examples.sample_printed (Ok Examples.sample_out) ∧
  ∃ flights : list flight,
    mapM keyed Examples.sample_out = Some flights ∧
    price_value <$> flights = [PInt 4000; PInt 4500; PInt 5200; PInf] ∧
    ∃ rec : list flight,
      search_flights_tool flights = Ok (rec, []) ∧
      flight_number <$> rec = ["B 202"; "A 101"; "C 404"].
Proof.
  split; [vm_compute; reflexivity|].
  eexists. split; [reflexivity|]. split; [reflexivity|].
  eexists. split; [vm_compute; reflexivity | reflexivity].
Qed.

Example streamlit_tolerance_5 :
  ∀ flights, streamlit_search flights 5 3 = search_flights_tool flights.
Proof. reflexivity. Qed.


Lemma find_direct_flights_sorted_stable_witness :
  find_direct_flights (Loaded Examples.sample_payload)
  = IO Examples.sample_printed (Ok Examples.sample_out) ∧
  StronglySorted (key_le price_value) Examples.sample_out ∧
  ∃ met,
    direct_flights Examples.sample_payload = IO Examples.sample_printed (Ok met) ∧
    Examples.sample_out ≡ₚ met ∧
    ∀ p, filter (λ f, price_value f = p) Examples.sample_out
         = filter (λ f, price_value f = p) met.
Proof.
  assert (find_direct_flights (Loaded Examples.sample_payload)
          = IO Examples.sample_printed (Ok Examples.sample_out)) as H
    by (vm_compute; reflexivity).
  split; [exact H|].
  exact (find_direct_flights_sorted_stable (Loaded Examples.sample_payload) _ _ H).
Defined.

Lemma one_flight_per_direct_offer_witness :
  find_direct_flights (Loaded Examples.sample_payload)
  = IO Examples.sample_printed (Ok Examples.sample_out) ∧
  ∃ sources metadata search_url met,
    gather_sources Examples.sample_payload = Ok sources ∧
    py_get Examples.sample_payload "search_metadata" (VDict []) = Ok metadata ∧
    py_get metadata "google_flights_url" VNone = Ok search_url ∧
    Forall2 (λ offer info, flight_entry search_url offer = Ok info)
            (List.filter direct_with_segment sources) met ∧
    Examples.sample_out = py_sorted price_value met ∧
    length Examples.sample_out = length (List.filter direct_with_segment sources).
Proof.
  assert (find_direct_flights (Loaded Examples.sample_payload)
          = IO Examples.sample_printed (Ok Examples.sample_out)) as H
    by (vm_compute; reflexivity).
  split; [exact H|].
  exact (one_flight_per_direct_offer Examples.sample_payload _ _ H).
Defined.

(** * Further properties of the code *)

(** ** The entries [find_direct_flights] builds *)

Lemma flight_entry_fields su offer info :
  flight_entry su offer = Ok info →
  ∃ d, offer = VDict d ∧
    price_raw info = default VNone (dict_lookup "price" d) ∧
    clean_price (price_raw info) = Ok (price_value info) ∧
    duration info = default (VStr "Unknown") (dict_lookup "total_duration" d) ∧
    link_usable (link info) = true.
Proof.
  unfold flight_entry. intros H.
  apply bind_ok_inv in H as (segment & Hseg & H).
  destruct offer as [| | | | | |d]; try discriminate Hseg.
  exists d. split; [done|].
  repeat match type of H with
  | _ ≫= _ = Ok _ =>
      let Ha := fresh "Ha" in
      apply bind_ok_inv in H as (? & Ha & H)
  end.
  injection H as <-. simpl.
  repeat match goal with
  | Hg : py_get (VDict d) _ _ = Ok _ |- _ => injection Hg as <-
  end.
  repeat split; try done.
  destruct (truthy (default VNone (dict_lookup "google_flights_url" d))) eqn:Hper;
    [done|].
  destruct (truthy (default VNone (dict_lookup "booking_token" d)) && truthy su);
    [done|].
  by destruct (truthy su) eqn:Hsu.
Qed.

Lemma returned_entries data ev out f :
  find_direct_flights (Loaded data) = IO ev (Ok out) → f ∈ out →
  ∃ search_url offer, flight_entry search_url offer = Ok f.
Proof.
  intros (met & Hd & ->)%find_direct_flights_ok Hf.
  apply direct_flights_ok in Hd as (sources & ? & su & ev' & _ & _ & _ & Hc & _).
  apply collect_ok in Hc as (met' & -> & HF). simpl in Hf.
  rewrite py_sorted_perm in Hf.
  apply list_elem_of_lookup in Hf as [i Hi].
  destruct (Forall2_lookup_r _ _ _ _ _ HF Hi) as (offer & _ & Hentry).
  eauto.
Qed.

(** Every flight [find_direct_flights] returns has a usable link: the
    per-flight URL, the search URL (with or without the booking token), or
    the text ['No link']; never [None] or an empty text. *)
Theorem returned_links_usable file ev out f :
  find_direct_flights file = IO ev (Ok out) → f ∈ out →
  link_usable (link f) = true.
Proof.
  destruct file as [|data].
  - intros [= <- <-] Hf. by apply elem_of_nil in Hf.
  - intros H Hf. destruct (returned_entries _ _ _ _ H Hf) as (su & offer & Hentry).
    by destruct (flight_entry_fields _ _ _ Hentry) as (d & _ & _ & _ & _ & Hlink).
Qed.

Lemma returned_links_usable_witness :
  Examples.entry "B" "B 202" (VStr "₹4,000") (PInt 4000) ∈ Examples.sample_out ∧
  link_usable (link (Examples.entry "B" "B 202" (VStr "₹4,000") (PInt 4000))) = true.
Proof.
  assert (find_direct_flights (Loaded Examples.sample_payload)
          = IO Examples.sample_printed (Ok Examples.sample_out)) as H
    by (vm_compute; reflexivity).
  assert (Examples.entry "B" "B 202" (VStr "₹4,000") (PInt 4000) ∈ Examples.sample_out)
    as Hin by left.
  split; [exact Hin|].
  exact (returned_links_usable _ _ _ _ H Hin).
Defined.

(** The [price_value] of every returned flight is the cleaned [price_raw]
    of the same flight. *)
Theorem returned_price_is_cleaned_raw file ev out f :
  find_direct_flights file = IO ev (Ok out) → f ∈ out →
  clean_price (price_raw f) = Ok (price_value f).
Proof.
  destruct file as [|data].
  - intros [= <- <-] Hf. by apply elem_of_nil in Hf.
  - intros H Hf. destruct (returned_entries _ _ _ _ H Hf) as (su & offer & Hentry).
    by destruct (flight_entry_fields _ _ _ Hentry) as (d & _ & _ & Hprice & _).
Qed.

Lemma returned_price_is_cleaned_raw_witness :
  Examples.entry "C" "C 404" (VStr "bad") PInf ∈ Examples.sample_out ∧
  clean_price (price_raw (Examples.entry "C" "C 404" (VStr "bad") PInf))
  = Ok (price_value (Examples.entry "C" "C 404" (VStr "bad") PInf)).
Proof.
  assert (find_direct_flights (Loaded Examples.sample_payload)
          = IO Examples.sample_printed (Ok Examples.sample_out)) as H
    by (vm_compute; reflexivity).
  assert (Examples.entry "C" "C 404" (VStr "bad") PInf ∈ Examples.sample_out)
    as Hin by (do 3 right; left).
  split; [exact Hin|].
  exact (returned_price_is_cleaned_raw _ _ _ _ H Hin).
Defined.

(** ** What happens to each offer *)

Lemma collect_accounts su sources acc ev res :
  collect su sources acc = IO ev (Ok res) →
  ∃ skipped, ev = ReportSkipping <$> skipped ∧
    Forall (λ e, caught e = true) skipped ∧
    length res + length skipped + length (List.filter has_layovers sources)
    = length acc + length sources.
Proof.
  revert acc ev. induction sources as [|flight rest IH]; intros acc ev H; simpl in H.
  - injection H as <- <-. exists []. simpl. repeat split; [constructor | lia].
  - apply io_bind_ok_inv in H as (ev1 & has & ev2 & Hget & H & ->).
    destruct flight as [| | | | | |d]; try discriminate Hget.
    injection Hget as <- <-.
    cbn [List.filter]. unfold has_layovers at 1. simpl layover_indicator.
    destruct (truthy (default VNone (dict_lookup "layovers" d))) eqn:Hlay.
    { apply IH in H as (skipped & -> & Hc & Hlen). exists skipped.
      repeat split; [done|]. simpl. lia. }
    destruct (flight_entry su (VDict d)) as [info|e] eqn:Hentry.
    + apply IH in H as (skipped & -> & Hc & Hlen). exists skipped.
      repeat split; [done|]. rewrite length_app in Hlen. simpl in *. lia.
    + destruct (caught e) eqn:He; [|discriminate H].
      apply io_bind_ok_inv in H as (? & [] & ? & [= <-] & H & ->).
      apply IH in H as (skipped & -> & Hc & Hlen). exists (e :: skipped).
      repeat split; [by constructor|]. simpl. lia.
Qed.

(** When [find_direct_flights] returns on a payload, it has printed the
    number of offers once and then one report per offer it gave up on, and
    every offer is accounted for once: returned as a flight, reported, or
    passed over in silence because of its layovers. *)
Theorem every_offer_accounted_for data ev out :
  find_direct_flights (Loaded data) = IO ev (Ok out) →
  ∃ sources skipped,
    gather_sources data = Ok sources ∧
    ev = ReportAnalyzing (length sources) :: (ReportSkipping <$> skipped) ∧
    Forall (λ e, e = KeyError ∨ e = IndexError) skipped ∧
    length out + length skipped + length (List.filter has_layovers sources)
    = length sources.
Proof.
  intros (met & Hd & ->)%find_direct_flights_ok.
  apply direct_flights_ok in Hd as (sources & ? & su & ev' & Hs & _ & _ & Hc & ->).
  apply collect_accounts in Hc as (skipped & -> & Hcaught & Hlen).
  exists sources, skipped. repeat split; [done| |].
  - eapply Forall_impl; [exact Hcaught|]. intros [] He; try discriminate He; auto.
  - rewrite (py_sorted_perm _ met). simpl in Hlen. lia.
Qed.

Lemma every_offer_accounted_for_witness :
  find_direct_flights (Loaded Examples.sample_payload)
  = IO Examples.sample_printed (Ok Examples.sample_out) ∧
  ∃ sources skipped,
    gather_sources Examples.sample_payload = Ok sources ∧
    Examples.sample_printed
    = ReportAnalyzing (length sources) :: (ReportSkipping <$> skipped) ∧
    Forall (λ e, e = KeyError ∨ e = IndexError) skipped ∧
    length Examples.sample_out + length skipped
      + length (List.filter has_layovers sources)
    = length sources.
Proof.
  assert (find_direct_flights (Loaded Examples.sample_payload)
          = IO Examples.sample_printed (Ok Examples.sample_out)) as H
    by (vm_compute; reflexivity).
  split; [exact H|].
  exact (every_offer_accounted_for _ _ _ H).
Defined.

(** A payload that is not a JSON object never gets an answer: the call
    raises [TypeError] or [AttributeError] before anything is printed. *)
Theorem payload_must_be_object data :
  is_dict data = false →
  ∃ e, find_direct_flights (Loaded data) = IO [] (Raise e) ∧
       (e = TypeError ∨ e = AttributeError).
Proof.
  intros Hd. cbn [find_direct_flights]. unfold direct_flights, gather_sources, known_sources.
  destruct data as [| | | |s|l|]; try discriminate Hd; simpl; eauto.
  - destruct (is_substring "best_flights" s); simpl; [eauto|].
    destruct (is_substring "other_flights" s); simpl; eauto.
  - destruct (existsb (is_str "best_flights") l); simpl; [eauto|].
    destruct (existsb (is_str "other_flights") l); simpl; eauto.
Qed.

Lemma payload_must_be_object_witness :
  is_dict (VList [VStr "best_flights"]) = false ∧
  ∃ e, find_direct_flights (Loaded (VList [VStr "best_flights"])) = IO [] (Raise e) ∧
       (e = TypeError ∨ e = AttributeError).
Proof.
  split; [reflexivity|].
  apply (payload_must_be_object (VList [VStr "best_flights"])). reflexivity.
Defined.

(** ** Prices that could not be read *)

Lemma sorted_priced_first {K} (l : list (flight_info K)) :
  StronglySorted (key_le price_value) l →
  ∃ with_price without,
    l = with_price ++ without ∧
    Forall (λ f, priced f = true) with_price ∧
    Forall (λ f, price_value f = PInf) without.
Proof.
  induction 1 as [|f l Hl IH Hf].
  - exists [], []. repeat split; constructor.
  - destruct IH as (wp & wo & -> & Hwp & Hwo).
    destruct (price_value f) as [z|] eqn:Hp.
    + exists (f :: wp), wo. repeat split; [|done].
      constructor; [|done]. unfold priced. by rewrite Hp.
    + exists [], (f :: wp ++ wo). repeat split; [constructor|].
      constructor; [done|].
      eapply Forall_impl; [exact Hf|]. intros g Hg.
      unfold key_le, price_le in Hg. rewrite Hp in Hg.
      by destruct (price_value g).
Qed.

(** In the list [find_direct_flights] returns, the flights whose price
    could not be read (value [inf]) come after all the flights with a
    price: such a flight is first only when no flight has a price. *)
Theorem unreadable_prices_last file ev out :
  find_direct_flights file = IO ev (Ok out) →
  ∃ with_price without,
    out = with_price ++ without ∧
    Forall (λ f, priced f = true) with_price ∧
    Forall (λ f, price_value f = PInf) without.
Proof.
  intros H. apply sorted_priced_first.
  destruct file as [|data].
  - injection H as <- <-. constructor.
  - apply find_direct_flights_ok in H as (met & _ & ->). apply py_sorted_sorted.
Qed.

Lemma unreadable_prices_last_witness :
  find_direct_flights (Loaded Examples.sample_payload)
  = IO Examples.sample_printed (Ok Examples.sample_out) ∧
  ∃ with_price without,
    Examples.sample_out = with_price ++ without ∧
    Forall (λ f, priced f = true) with_price ∧
    Forall (λ f, price_value f = PInf) without.
Proof.
  assert (find_direct_flights (Loaded Examples.sample_payload)
          = IO Examples.sample_printed (Ok Examples.sample_out)) as H
    by (vm_compute; reflexivity).
  split; [exact H|].
  exact (unreadable_prices_last _ _ _ H).
Defined.

(** ** More on the recommendations *)

Lemma recommended_length_le flights max_picks :
  length (recommended flights max_picks) ≤ max_picks.
Proof.
  unfold recommended. case_bool_decide as Hshort.
  - destruct (fill_length max_picks flights
                (take max_picks (diverse_flights flights)) Hshort) as [->|[? _]]; lia.
  - rewrite length_take. lia.
Qed.

Lemma recommended_elem_of flights max_picks r :
  r ∈ recommended flights max_picks → r ∈ flights.
Proof.
  unfold recommended.
  destruct (diverse_flights_perm flights) as (firsts & Hd & Hsub & _).
  assert (∀ x, x ∈ take max_picks (diverse_flights flights) → x ∈ flights) as Htake.
  { intros x Hx. apply (sublist_elem_of _ _ _ (sublist_take _ _)) in Hx.
    rewrite Hd, py_sorted_perm in Hx. by eapply sublist_elem_of. }
  case_bool_decide; [|by apply Htake].
  destruct (fill_spec max_picks flights (take max_picks (diverse_flights flights)))
    as (ext & -> & Hext & _).
  intros [?|?]%elem_of_app; [by apply Htake | by eapply sublist_elem_of].
Qed.

Lemma alt_candidates_sublist flights rec thr :
  sublist (alt_candidates flights rec thr) flights.
Proof.
  unfold alt_candidates. induction flights as [|f flights IH]; simpl; [constructor|].
  case_match; by constructor.
Qed.

(** The recommended list never has more than [max_picks] entries. *)
Theorem recommended_at_most_max_picks flights max_picks tol rec alts :
  recommend flights max_picks tol = Ok (rec, alts) →
  length rec ≤ max_picks.
Proof.
  intros [(_ & -> & _)|(f & rest & thr & _ & _ & -> & _)]%recommend_ok_inv.
  - simpl. lia.
  - apply recommended_length_le.
Qed.

Lemma recommended_at_most_max_picks_witness :
  recommend Examples.sample_flights 2 Examples.tol5
  = Ok ([Examples.fl "B" "B 202" (PInt 4000); Examples.fl "A" "A 101" (PInt 4200)],
        [Examples.fl "B" "B 204" (PInt 4100)]) ∧
  length [Examples.fl "B" "B 202" (PInt 4000); Examples.fl "A" "A 101" (PInt 4200)] ≤ 2.
Proof.
  assert (recommend Examples.sample_flights 2 Examples.tol5
          = Ok ([Examples.fl "B" "B 202" (PInt 4000); Examples.fl "A" "A 101" (PInt 4200)],
                [Examples.fl "B" "B 204" (PInt 4100)])) as H by (vm_compute; reflexivity).
  split; [exact H|].
  exact (recommended_at_most_max_picks _ _ _ _ _ H).
Defined.

(** Both lists hold flights of the list given, nothing else, and the
    alternatives are in the order of that list. *)
Theorem recommendations_from_the_list flights max_picks tol rec alts :
  recommend flights max_picks tol = Ok (rec, alts) →
  (∀ r, r ∈ rec → r ∈ flights) ∧ sublist alts flights.
Proof.
  intros [(-> & -> & ->)|(f & rest & thr & _ & _ & -> & ->)]%recommend_ok_inv.
  - split; [done | constructor].
  - split; [intros r; apply recommended_elem_of | apply alt_candidates_sublist].
Qed.

Lemma recommendations_from_the_list_witness :
  recommend Examples.sample_flights 2 Examples.tol5
  = Ok ([Examples.fl "B" "B 202" (PInt 4000); Examples.fl "A" "A 101" (PInt 4200)],
        [Examples.fl "B" "B 204" (PInt 4100)]) ∧
  (∀ r, r ∈ [Examples.fl "B" "B 202" (PInt 4000); Examples.fl "A" "A 101" (PInt 4200)] →
        r ∈ Examples.sample_flights) ∧
  sublist [Examples.fl "B" "B 204" (PInt 4100)] Examples.sample_flights.
Proof.
  assert (recommend Examples.sample_flights 2 Examples.tol5
          = Ok ([Examples.fl "B" "B 202" (PInt 4000); Examples.fl "A" "A 101" (PInt 4200)],
                [Examples.fl "B" "B 204" (PInt 4100)])) as H by (vm_compute; reflexivity).
  split; [exact H|].
  exact (recommendations_from_the_list _ _ _ _ _ H).
Defined.

Lemma unique_airlines_covers flights unique :
  (∀ k, k ∈ unique.*1 → k ∈ (unique_airlines flights unique).*1) ∧
  (∀ f, f ∈ flights → airline f ∈ (unique_airlines flights unique).*1).
Proof.
  revert unique. induction flights as [|f rest IH]; intros unique; simpl.
  - split; [done|]. intros f Hf. by apply elem_of_nil in Hf.
  - case_bool_decide as Hin.
    + destruct (IH unique) as [Hold Hnew]. split; [done|].
      intros g [->|Hg]%elem_of_cons; auto.
    + destruct (IH (unique ++ [(airline f, f)])) as [Hold Hnew]. split.
      * intros k Hk. apply Hold. rewrite fmap_app, elem_of_app. by left.
      * intros g [->|Hg]%elem_of_cons; [|auto].
        apply Hold. rewrite fmap_app, elem_of_app. right. by left.
Qed.

(** Every flight in the dictionary is the first of its airline in the
    list. *)
Lemma unique_airlines_first flights unique kf :
  kf ∈ unique_airlines flights unique →
  kf ∈ unique ∨
  ∃ before after, flights = before ++ kf.2 :: after ∧
    (airline kf.2 ∉ airline <$> before) ∧
    (airline kf.2 ∉ unique.*1).
Proof.
  revert unique. induction flights as [|f rest IH]; intros unique; simpl; [auto|].
  case_bool_decide as Hin.
  - intros [?|(before & after & -> & Hb & Hu)]%IH; [by left|]. right.
    exists (f :: before), after. repeat split; [|done].
    rewrite fmap_cons. intros [Heq|?]%elem_of_cons; [|done].
    by rewrite Heq in Hu.
  - intros [Hkf|(before & after & -> & Hb & Hu)]%IH.
    + apply elem_of_app in Hkf as [?|Hkf]; [by left|].
      apply list_elem_of_singleton in Hkf as ->. right.
      exists [], rest. repeat split; [|done].
      simpl. apply not_elem_of_nil.
    + right. rewrite fmap_app, not_elem_of_app in Hu. destruct Hu as [Hu Hf].
      exists (f :: before), after. repeat split; [|done].
      rewrite fmap_cons. intros [Heq|?]%elem_of_cons; [|done].
      apply Hf. simpl. rewrite Heq. by left.
Qed.

Lemma diverse_flights_first flights r :
  r ∈ diverse_flights flights →
  ∃ before after, flights = before ++ r :: after ∧ airline r ∉ airline <$> before.
Proof.
  unfold diverse_flights. rewrite py_sorted_perm.
  intros ([k f] & -> & Hkf)%list_elem_of_fmap.
  apply unique_airlines_first in Hkf as [Hnil|(before & after & ? & ? & _)].
  - by apply elem_of_nil in Hnil.
  - by exists before, after.
Qed.

Lemma diverse_flights_airlines flights :
  size (list_to_set (airline <$> flights) : gset string) ≤ length (diverse_flights flights).
Proof.
  unfold diverse_flights. rewrite py_sorted_perm, length_fmap.
  rewrite <- (length_fmap fst).
  etrans; [|apply size_list_to_set_le].
  apply subseteq_size. intros k. rewrite !elem_of_list_to_set.
  intros (f & -> & Hf)%list_elem_of_fmap.
  by apply unique_airlines_covers.
Qed.

Lemma diverse_flights_NoDup flights : NoDup (airline <$> diverse_flights flights).
Proof.
  destruct (diverse_flights_perm flights) as (firsts & -> & _ & Hnd & _).
  by rewrite py_sorted_perm.
Qed.

Lemma StronglySorted_after {A} (R : relation A) before x after :
  StronglySorted R (before ++ x :: after) → Forall (R x) after.
Proof.
  induction before as [|y before IH]; simpl.
  - by intros [_ ?]%StronglySorted_inv.
  - intros [? _]%StronglySorted_inv. auto.
Qed.

(** When the flights are of at least [max_picks] airlines, the recommended
    list has [max_picks] flights of [max_picks] different airlines, and, the
    list being sorted by price, each is a cheapest flight of its airline. *)
Theorem picks_cheapest_per_airline flights max_picks tol rec alts :
  Sorted (key_le price_value) flights →
  max_picks ≤ size (list_to_set (airline <$> flights) : gset string) →
  recommend flights max_picks tol = Ok (rec, alts) →
  length rec = max_picks ∧
  NoDup (airline <$> rec) ∧
  ∀ r g, r ∈ rec → g ∈ flights → airline g = airline r →
         price_le (price_value r) (price_value g).
Proof.
  intros Hsorted Hair [(-> & -> & _)|(f & rest & thr & _ & _ & -> & _)]%recommend_ok_inv.
  { assert (size (list_to_set (airline <$> []) : gset string) = 0) as E by reflexivity.
    rewrite E in Hair. split; [simpl; lia|]. split; [constructor|].
    intros r g Hr. by apply elem_of_nil in Hr. }
  pose proof (diverse_flights_airlines flights) as Hdiv.
  unfold recommended. rewrite bool_decide_eq_false_2 by (rewrite length_take; lia).
  split; [rewrite length_take; lia|]. split.
  - eapply sublist_NoDup; [apply diverse_flights_NoDup|].
    apply fmap_sublist, sublist_take.
  - intros r g Hr Hg Hsame.
    apply (sublist_elem_of _ _ _ (sublist_take _ _)) in Hr.
    apply diverse_flights_first in Hr as (before & after & -> & Hfirst).
    apply (Sorted_StronglySorted _) in Hsorted.
    apply elem_of_app in Hg as [Hg|Hg].
    + exfalso. apply Hfirst. rewrite <- Hsame. by apply list_elem_of_fmap_2.
    + apply elem_of_cons in Hg as [->|Hg]; [done|].
      apply StronglySorted_after in Hsorted. rewrite Forall_forall in Hsorted.
      by apply Hsorted.
Qed.

Lemma picks_cheapest_per_airline_witness :
  recommend Examples.sample_flights 3 Examples.tol5
  = Ok ([Examples.fl "B" "B 202" (PInt 4000); Examples.fl "A" "A 101" (PInt 4200);
         Examples.fl "C" "C 404" PInf],
        [Examples.fl "B" "B 204" (PInt 4100)]) ∧
  length [Examples.fl "B" "B 202" (PInt 4000); Examples.fl "A" "A 101" (PInt 4200);
          Examples.fl "C" "C 404" PInf] = 3 ∧
  NoDup (airline <$> [Examples.fl "B" "B 202" (PInt 4000);
                      Examples.fl "A" "A 101" (PInt 4200);
                      Examples.fl "C" "C 404" PInf]) ∧
  ∀ r g, r ∈ [Examples.fl "B" "B 202" (PInt 4000); Examples.fl "A" "A 101" (PInt 4200);
              Examples.fl "C" "C 404" PInf] →
         g ∈ Examples.sample_flights → airline g = airline r →
         price_le (price_value r) (price_value g).
Proof.
  assert (recommend Examples.sample_flights 3 Examples.tol5
          = Ok ([Examples.fl "B" "B 202" (PInt 4000); Examples.fl "A" "A 101" (PInt 4200);
                 Examples.fl "C" "C 404" PInf],
                [Examples.fl "B" "B 204" (PInt 4100)])) as H by (vm_compute; reflexivity).
  split; [exact H|].
  refine (picks_cheapest_per_airline _ _ _ _ _ _ _ H).
  - repeat first [constructor | done].
  - vm_compute. lia.
Defined.

(** ** More on [clean_price] *)

(** A float with an integer part is cut towards zero: the result has the
    sign of the float, and its magnitude is the largest integer not above
    the magnitude [m * 2 ^ e] of the float. *)
Theorem clean_price_truncates (sign : bool) (m : positive) (e : Z) :
  ∃ a : Z,
    clean_price (VFloat (S754_finite sign m e)) = Ok (PInt (if sign then - a else a)) ∧
    (0 ≤ a)%Z ∧
    ((0 ≤ e)%Z → a = (Z.pos m * 2 ^ e)%Z) ∧
    ((e < 0)%Z → (a * 2 ^ (- e) ≤ Z.pos m < (a + 1) * 2 ^ (- e))%Z).
Proof.
  simpl. destruct (Z.leb_spec 0 e) as [He|He].
  - exists (Z.pos m * 2 ^ e)%Z.
    split; [done|]. split; [|split; [done | lia]].
    apply Z.mul_nonneg_nonneg; [lia | by apply Z.pow_nonneg].
  - exists (Z.pos m / 2 ^ (- e))%Z.
    assert (0 < 2 ^ (- e))%Z as Hpow by (apply Z.pow_pos_nonneg; lia).
    split; [done|]. split; [|split; [lia|]].
    + apply Z.div_pos; lia.
    + intros _. split.
      * rewrite Z.mul_comm. apply Z.mul_div_le. lia.
      * rewrite Z.mul_comm. apply Z.mul_succ_div_gt. lia.
Qed.

Lemma replace_absent old_head old_tail new s :
  string_forall (λ c, negb (Ascii.eqb c old_head)) s = true →
  replace (String old_head old_tail) new s = s.
Proof.
  unfold replace. induction s as [|c s IH]; simpl; [done|].
  intros [Hc Hs]%andb_prop. apply negb_true_iff, Ascii.eqb_neq in Hc.
  destruct (ascii_dec old_head c) as [->|_]; [done|].
  by rewrite IH.
Qed.

Lemma string_forall_impl (P Q : ascii → bool) s :
  (∀ c, P c = true → Q c = true) →
  string_forall P s = true → string_forall Q s = true.
Proof.
  intros HPQ. induction s as [|c s IH]; simpl; [done|].
  intros [Hc Hs]%andb_prop. rewrite HPQ by done. auto.
Qed.

Lemma lstrip_id s : string_forall (λ c, negb (is_space c)) s = true → lstrip s = s.
Proof. destruct s as [|c s]; simpl; [done|]. intros [Hc _]%andb_prop. by destruct (is_space c). Qed.

Lemma rstrip_id s : string_forall (λ c, negb (is_space c)) s = true → rstrip s = s.
Proof.
  induction s as [|c s IH]; simpl; [done|].
  intros [Hc Hs]%andb_prop. rewrite IH by done.
  destruct s; [|done]. by destruct (is_space c).
Qed.

Lemma strip_id s : string_forall (λ c, negb (is_space c)) s = true → strip s = s.
Proof. intros H. unfold strip. by rewrite lstrip_id, rstrip_id. Qed.

Lemma string_of_uint_digits d :
  string_forall is_digit (NilEmpty.string_of_uint d) = true.
Proof. induction d; simpl; done. Qed.

Lemma digits_value_acc d acc :
  digits_value (Z.pos acc) true (NilEmpty.string_of_uint d)
  = Some (Z.pos (Pos.of_uint_acc d acc)).
Proof.
  revert acc. induction d as [|d IH|d IH|d IH|d IH|d IH|d IH|d IH|d IH|d IH|d IH];
    intros acc; [done|..];
    cbn [NilEmpty.string_of_uint Pos.of_uint_acc digits_value];
    rewrite <- IH;
    match goal with |- context [digit_of ?c] =>
      let v := eval vm_compute in (digit_of c) in change (digit_of c) with v
    end;
    cbv iota beta; f_equal; lia.
Qed.

Lemma digits_value_uint d after_digit :
  d ≠ Decimal.Nil ∨ after_digit = true →
  digits_value 0 after_digit (NilEmpty.string_of_uint d) = Some (Z.of_N (Pos.of_uint d)).
Proof.
  revert after_digit.
  induction d as [|d IH|d IH|d IH|d IH|d IH|d IH|d IH|d IH|d IH|d IH];
    intros after_digit Hd.
  - destruct Hd as [?| ->]; done.
  - cbn [NilEmpty.string_of_uint Pos.of_uint digits_value]. apply IH. by right.
  - apply (digits_value_acc d 1).
  - apply (digits_value_acc d 2).
  - apply (digits_value_acc d 3).
  - apply (digits_value_acc d 4).
  - apply (digits_value_acc d 5).
  - apply (digits_value_acc d 6).
  - apply (digits_value_acc d 7).
  - apply (digits_value_acc d 8).
  - apply (digits_value_acc d 9).
Qed.

Lemma is_digit_not_space c : is_digit c = true → negb (is_space c) = true.
Proof. destruct c as [[] [] [] [] [] [] [] []]; vm_compute; done. Qed.

Lemma nilzero_string_of_uint d :
  d ≠ Decimal.Nil → NilZero.string_of_uint d = NilEmpty.string_of_uint d.
Proof. by destruct d. Qed.

Lemma int_of_str_uint d :
  d ≠ Decimal.Nil →
  (count_digits (NilEmpty.string_of_uint d) ≤ int_max_str_digits)%N →
  int_of_str (NilEmpty.string_of_uint d) = Ok (Z.of_N (Pos.of_uint d)).
Proof.
  intros Hd Hcount. unfold int_of_str.
  rewrite strip_id
    by (eapply string_forall_impl; [apply is_digit_not_space | apply string_of_uint_digits]).
  assert (match NilEmpty.string_of_uint d with
          | String "-" t => Z.opp <$> digits_value 0 false t
          | String "+" t => digits_value 0 false t
          | _ => digits_value 0 false (NilEmpty.string_of_uint d)
          end = digits_value 0 false (NilEmpty.string_of_uint d)) as -> by (by destruct d).
  rewrite digits_value_uint by auto.
  by apply N.ltb_ge in Hcount as ->.
Qed.

Lemma int_of_str_neg_uint d :
  d ≠ Decimal.Nil →
  (count_digits (NilEmpty.string_of_uint d) ≤ int_max_str_digits)%N →
  int_of_str (String "-" (NilEmpty.string_of_uint d)) = Ok (- Z.of_N (Pos.of_uint d))%Z.
Proof.
  intros Hd Hcount. unfold int_of_str.
  rewrite strip_id.
  2:{ simpl. eapply string_forall_impl;
        [apply is_digit_not_space | apply string_of_uint_digits]. }
  rewrite digits_value_uint by auto.
  change (count_digits (String "-" (NilEmpty.string_of_uint d)))
    with (0 + count_digits (NilEmpty.string_of_uint d))%N.
  rewrite N.add_0_l. by apply N.ltb_ge in Hcount as ->.
Qed.

(** [int(str(z)) == z], for [z] of no more digits than [int] reads. *)
Lemma int_of_str_of_int z :
  (count_digits (str_of_int z) ≤ int_max_str_digits)%N →
  int_of_str (str_of_int z) = Ok z.
Proof.
  unfold str_of_int. destruct z as [|p|p]; [done|..]; simpl.
  - rewrite nilzero_string_of_uint by apply Unsigned.to_uint_nonnil.
    intros Hcount. rewrite int_of_str_uint by (done || apply Unsigned.to_uint_nonnil).
    by rewrite Unsigned.of_to.
  - rewrite nilzero_string_of_uint by apply Unsigned.to_uint_nonnil.
    change (count_digits (String "-" (NilEmpty.string_of_uint (Pos.to_uint p))))
      with (0 + count_digits (NilEmpty.string_of_uint (Pos.to_uint p)))%N.
    rewrite N.add_0_l.
    intros Hcount. rewrite int_of_str_neg_uint by (done || apply Unsigned.to_uint_nonnil).
    by rewrite Unsigned.of_to.
Qed.

Lemma str_of_int_chars z :
  string_forall (λ c, is_digit c || Ascii.eqb c "-") (str_of_int z) = true.
Proof.
  assert (∀ d, string_forall (λ c, is_digit c || Ascii.eqb c "-")
                 (NilZero.string_of_uint d) = true) as Hd.
  { intros d. assert (d = Decimal.Nil ∨ d ≠ Decimal.Nil) as [->|Hne]
      by (destruct d; auto); [done|].
    rewrite nilzero_string_of_uint by done.
    eapply string_forall_impl; [|apply string_of_uint_digits].
    intros c ->. done. }
  unfold str_of_int. destruct z as [|p|p]; simpl; [done|apply Hd|].
  apply (Hd (Pos.to_uint p)).
Qed.

(** A rupee sign in front and commas anywhere do not change what is read:
    a text that is the decimal notation of [z] once its commas are taken
    out is cleaned to [z], with or without the sign in front, as long as [z]
    has no more digits than [int] reads (4300). *)
Theorem clean_price_reads_formatted_amount (z : Z) (t : string) :
  string_forall amount_char t = true →
  replace "," "" t = str_of_int z →
  (count_digits (str_of_int z) ≤ int_max_str_digits)%N →
  clean_price (VStr t) = Ok (PInt z) ∧
  clean_price (VStr ("₹" ++ t)%string) = Ok (PInt z).
Proof.
  intros Hchars Hdigits Hcount.
  assert (strip (replace "INR" "" (str_of_int z)) = str_of_int z) as Hrest.
  { rewrite replace_absent.
    - apply strip_id. eapply string_forall_impl; [|apply str_of_int_chars].
      intros c [Hc| ->%Ascii.eqb_eq]%orb_prop; [by apply is_digit_not_space | done].
    - eapply string_forall_impl; [|apply str_of_int_chars].
      intros c [Hc| ->%Ascii.eqb_eq]%orb_prop; [|done].
      apply negb_true_iff, Ascii.eqb_neq. intros ->. done. }
  assert (replace "₹" "" t = t) as Hplain.
  { apply replace_absent. eapply string_forall_impl; [|exact Hchars].
    intros c Hc. apply negb_true_iff, Ascii.eqb_neq. intros ->. done. }
  assert (replace "₹" "" ("₹" ++ t)%string = t) as Hsign.
  { change ("₹" ++ t)%string
      with (String "226"%char (String "130"%char (String "185"%char t))).
    unfold replace. simpl.
    assert (String.prefix "" t = true) as -> by (by destruct t).
    exact Hplain. }
  split; simpl.
  - by rewrite Hplain, Hdigits, Hrest, int_of_str_of_int.
  - change (replace_from "₹" "" 0 _) with (replace "₹" "" ("₹" ++ t)%string).
    by rewrite Hsign, Hdigits, Hrest, int_of_str_of_int.
Qed.

(** Beyond that many digits the text is not read: the price is [inf]. *)
Example clean_price_refuses_long_numbers :
  clean_price (VStr (String.concat "" (List.repeat "1234567890" 431))) = Ok PInf ∧
  clean_price (VStr (String.concat "" (List.repeat "1234567890" 430)))
  ≠ Ok PInf.
Proof. split; [vm_compute; reflexivity|]. vm_compute. discriminate. Qed.

Lemma clean_price_reads_formatted_amount_witness :
  clean_price (VStr "12,34,500") = Ok (PInt 1234500) ∧
  clean_price (VStr "₹12,34,500") = Ok (PInt 1234500).
Proof.
  apply (clean_price_reads_formatted_amount 1234500 "12,34,500");
    [reflexivity | reflexivity | vm_compute; discriminate].
Defined.

(** ** Further error and edge behaviour *)

(** An offer with layovers is passed over before anything else of it is
    looked at: whatever it holds besides, it adds no flight, prints no
    report and raises nothing. *)
Theorem layover_offer_dropped_silently su before d after acc :
  truthy (layover_indicator (VDict d)) = true →
  collect su (before ++ VDict d :: after) acc = collect su (before ++ after) acc.
Proof.
  intros Hlay. rewrite !collect_app.
  destruct (collect su before acc) as [ev [found|e]]; [|done].
  rewrite !io_bind_ok. cbn [collect].
  change (py_get (VDict d) "layovers" VNone)
    with (Ok (layover_indicator (VDict d))).
  by rewrite io_ret_bind, Hlay.
Qed.

Lemma layover_offer_dropped_silently_witness :
  truthy (layover_indicator
            (VDict [("layovers", VList [VDict []]); ("flights", VNone)])) = true ∧
  collect VNone ([Examples.offer "A" "A 101" (VInt 4500)]
                   ++ VDict [("layovers", VList [VDict []]); ("flights", VNone)]
                   :: [Examples.offer "B" "B 202" (VInt 4000)]) []
  = collect VNone ([Examples.offer "A" "A 101" (VInt 4500)]
                     ++ [Examples.offer "B" "B 202" (VInt 4000)]) [].
Proof.
  split; [reflexivity|].
  apply (layover_offer_dropped_silently VNone [Examples.offer "A" "A 101" (VInt 4500)]).
  reflexivity.
Defined.

(** [clean_price] returns on every value that is not an infinite float or
    NaN. *)
Theorem clean_price_returns v :
  finite_price v = true → ∃ p, clean_price v = Ok p.
Proof.
  intros Hv. destruct (clean_price v) as [p|e] eqn:Hp; [eauto|].
  apply clean_price_raises in Hp as [(s & -> & _)|[-> _]]; discriminate Hv.
Qed.

Lemma clean_price_returns_witness :
  finite_price (VStr "4,500 INR") = true ∧ ∃ p, clean_price (VStr "4,500 INR") = Ok p.
Proof.
  split; [reflexivity|]. apply (clean_price_returns (VStr "4,500 INR")). reflexivity.
Defined.

Lemma find_direct_flights_returns_witness :
  gather_sources Examples.sample_payload
  = Ok [Examples.offer "A" "A 101" (VStr "₹4,500"); Examples.offer "B" "B 202" (VStr "₹4,000");
        Examples.offer "A" "A 303" (VInt 5200);
        Examples.with_layover "D" "D 1" (VInt 3000);
        VDict [("price", VInt 1)];
        VDict [("flights", VList [])];
        Examples.offer "C" "C 404" (VStr "bad")] ∧
  ∃ ev out, find_direct_flights (Loaded Examples.sample_payload) = IO ev (Ok out).
Proof.
  split; [reflexivity|].
  eapply (find_direct_flights_returns Examples.sample_payload); [reflexivity..|].
  repeat (constructor; [reflexivity|]). constructor.
Defined.

(** On flights whose airline and flight number are text, the only
    exception the recommendation code raises is the [OverflowError] of
    turning the cheapest price into a float, on a list whose first price
    is an int too large for that. *)
Theorem recommend_raises_only_overflow
    (cleaned : list (flight_info pyval)) (flights : list flight) max_picks tol e :
  mapM keyed cleaned = Some flights →
  recommend flights max_picks tol = Raise e →
  e = OverflowError ∧
  ∃ f rest z, cleaned = f :: rest ∧ price_value f = PInt z ∧
              float_of_int z = Raise OverflowError.
Proof.
  intros Hkeyed.
  destruct flights as [|g flights]; simpl; [done|].
  intros [H|(thr & _ & H)]%bind_raise_inv; [|done].
  unfold threshold in H. destruct (price_value g) as [z|] eqn:Hp; [|done].
  apply bind_raise_inv in H as [H|(c & _ & H)]; [|done].
  assert (e = OverflowError) as ->.
  { unfold float_of_int in H.
    destruct (binary_normalize _ _ _ _ _); try discriminate H. by injection H as <-. }
  split; [done|].
  destruct cleaned as [|f rest]; [done|].
  apply mapM_Some in Hkeyed. apply Forall2_cons_1 in Hkeyed as [Hf _].
  exists f, rest, z. split; [done|]. split; [|exact H].
  unfold keyed in Hf. destruct (airline f), (flight_number f); try discriminate Hf.
  injection Hf as <-. exact Hp.
Qed.

Lemma recommend_raises_only_overflow_witness :
  mapM keyed [Examples.entry "A" "A 101" VNone (PInt (2 ^ 1024))]
  = Some [FlightInfo "A" "A 101" (VStr "2026-01-20 06:00") (VStr "2026-01-20 08:10")
                     (VInt 130) VNone (PInt (2 ^ 1024))
                     (LinkOf (VStr "https://g.co/f?q=1"))] ∧
  recommend [FlightInfo "A" "A 101" (VStr "2026-01-20 06:00") (VStr "2026-01-20 08:10")
                        (VInt 130) VNone (PInt (2 ^ 1024))
                        (LinkOf (VStr "https://g.co/f?q=1"))] 3 Examples.tol5
  = Raise OverflowError ∧
  OverflowError = OverflowError ∧
  ∃ f rest z, [Examples.entry "A" "A 101" VNone (PInt (2 ^ 1024))] = f :: rest ∧
              price_value f = PInt z ∧ float_of_int z = Raise OverflowError.
Proof.
  assert (mapM keyed [Examples.entry "A" "A 101" VNone (PInt (2 ^ 1024))]
          = Some [FlightInfo "A" "A 101" (VStr "2026-01-20 06:00")
                             (VStr "2026-01-20 08:10") (VInt 130) VNone (PInt (2 ^ 1024))
                             (LinkOf (VStr "https://g.co/f?q=1"))]) as Hk by reflexivity.
  assert (recommend [FlightInfo "A" "A 101" (VStr "2026-01-20 06:00")
                                (VStr "2026-01-20 08:10") (VInt 130) VNone
                                (PInt (2 ^ 1024)) (LinkOf (VStr "https://g.co/f?q=1"))]
                    3 Examples.tol5
          = Raise OverflowError) as H by (vm_compute; reflexivity).
  split; [exact Hk|]. split; [exact H|].
  exact (recommend_raises_only_overflow _ _ _ _ _ Hk H).
Defined.

(** ** [convert_to_iata] *)

Ltac by_cases_on_char c := destruct c as [[] [] [] [] [] [] [] []]; vm_compute; done.

Lemma upper_char_is_upper c : is_alpha c = true → is_upper (upper_char c) = true.
Proof. by_cases_on_char c. Qed.

Lemma upper_char_fixed c : is_upper c = true → upper_char c = c.
Proof. by_cases_on_char c. Qed.

Lemma upper_char_idemp c : upper_char (upper_char c) = upper_char c.
Proof. by_cases_on_char c. Qed.

Lemma lower_upper_char c : lower_char (upper_char c) = lower_char c.
Proof. by_cases_on_char c. Qed.

Lemma is_alpha_upper_char c : is_alpha (upper_char c) = is_alpha c.
Proof. by_cases_on_char c. Qed.

Lemma is_alpha_lower_char c : is_alpha (lower_char c) = is_alpha c.
Proof. by_cases_on_char c. Qed.

Lemma is_space_upper_char c : is_space (upper_char c) = is_space c.
Proof. by_cases_on_char c. Qed.

Lemma is_upper_alpha c : is_upper c = true → is_alpha c = true.
Proof. by_cases_on_char c. Qed.

Lemma is_alpha_not_space c : is_alpha c = true → negb (is_space c) = true.
Proof. by_cases_on_char c. Qed.

Lemma upper_length s : String.length (upper s) = String.length s.
Proof. induction s; simpl; auto. Qed.

Lemma upper_empty s : String.eqb (upper s) "" = String.eqb s "".
Proof. by destruct s. Qed.

Lemma upper_idemp s : upper (upper s) = upper s.
Proof. induction s as [|c s IH]; simpl; [done|]. by rewrite upper_char_idemp, IH. Qed.

Lemma lower_upper s : lower (upper s) = lower s.
Proof. induction s as [|c s IH]; simpl; [done|]. by rewrite lower_upper_char, IH. Qed.

Lemma upper_fixed s : string_forall is_upper s = true → upper s = s.
Proof.
  induction s as [|c s IH]; simpl; [done|].
  intros [Hc Hs]%andb_prop. by rewrite upper_char_fixed, IH.
Qed.

Lemma upper_is_upper s :
  string_forall is_alpha s = true → string_forall is_upper (upper s) = true.
Proof.
  induction s as [|c s IH]; simpl; [done|].
  intros [Hc Hs]%andb_prop. by rewrite upper_char_is_upper, IH.
Qed.

Lemma string_forall_alpha_upper s :
  string_forall is_alpha (upper s) = string_forall is_alpha s.
Proof. induction s as [|c s IH]; simpl; [done|]. by rewrite is_alpha_upper_char, IH. Qed.

Lemma isalpha_upper s : isalpha (upper s) = isalpha s.
Proof. unfold isalpha. by rewrite upper_empty, string_forall_alpha_upper. Qed.

Lemma letters_alpha s : string_forall is_alpha (letters s) = true.
Proof.
  induction s as [|c s IH]; simpl; [done|].
  destruct (is_alpha c) eqn:Hc; simpl; [by rewrite Hc|done].
Qed.

Lemma letters_fixed s : string_forall is_alpha s = true → letters s = s.
Proof.
  induction s as [|c s IH]; simpl; [done|].
  intros [-> Hs]%andb_prop. by rewrite IH.
Qed.

Lemma letters_upper s : letters (upper s) = upper (letters s).
Proof.
  induction s as [|c s IH]; simpl; [done|].
  rewrite is_alpha_upper_char. destruct (is_alpha c); simpl; by rewrite IH.
Qed.

Lemma letters_lower_length s :
  String.length (letters (lower s)) = String.length (letters s).
Proof.
  induction s as [|c s IH]; simpl; [done|].
  rewrite is_alpha_lower_char. destruct (is_alpha c); simpl; by rewrite IH.
Qed.

Lemma first_chars_forall P n s :
  string_forall P s = true → string_forall P (first_chars n s) = true.
Proof.
  revert s. induction n as [|n IH]; intros [|c s]; simpl; try done.
  intros [-> Hs]%andb_prop. by apply IH.
Qed.

Lemma first_chars_length n s :
  String.length (first_chars n s) = n `min` String.length s.
Proof.
  revert s. induction n as [|n IH]; intros [|c s]; simpl; try done.
  by rewrite IH.
Qed.

Lemma first_chars_upper n s : first_chars n (upper s) = upper (first_chars n s).
Proof.
  revert s. induction n as [|n IH]; intros [|c s]; simpl; try done.
  by rewrite IH.
Qed.

Lemma lstrip_upper s : lstrip (upper s) = upper (lstrip s).
Proof.
  induction s as [|c s IH]; simpl; [done|].
  rewrite is_space_upper_char. by destruct (is_space c).
Qed.

Lemma rstrip_upper s : rstrip (upper s) = upper (rstrip s).
Proof.
  induction s as [|c s IH]; simpl; [done|].
  rewrite IH, is_space_upper_char.
  destruct (rstrip s); simpl; [by destruct (is_space c)|done].
Qed.

Lemma strip_upper s : strip (upper s) = upper (strip s).
Proof. unfold strip. by rewrite lstrip_upper, rstrip_upper. Qed.

Lemma mapping_get_forall (P : string * string → bool) k m v :
  forallb P m = true → mapping_get k m = Some v → P (k, v) = true.
Proof.
  induction m as [|[k' v'] m IH]; simpl; [done|].
  intros [Hkv Hm]%andb_prop.
  destruct (String.eqb_spec k k') as [->|_]; [by intros [= <-]|auto].
Qed.

Lemma guessed_spec s :
  match guessed s with
  | Some code =>
      3 ≤ String.length (letters s) ∧ String.length code = 3 ∧
      string_forall is_upper code = true
  | None => String.length (letters s) < 3
  end.
Proof.
  unfold guessed.
  destruct (Nat.eqb_spec (String.length (upper (first_chars 3 (letters s)))) 3)
    as [Hlen|Hlen].
  - split; [|split; [done|]].
    + rewrite upper_length, first_chars_length in Hlen. lia.
    + apply upper_is_upper, first_chars_forall, letters_alpha.
  - rewrite upper_length, first_chars_length in Hlen. lia.
Qed.

Lemma convert_to_iata_cases loc :
  convert_to_iata loc =
  if String.eqb loc "" then None
  else if (String.length (strip loc) =? 3) && isalpha (strip loc)
       then Some (upper (strip loc))
  else match mapping_get (lower (strip loc)) mapping with
       | Some code => if String.eqb code "" then guessed (strip loc) else Some code
       | None => guessed (strip loc)
       end.
Proof. reflexivity. Qed.

Lemma guessed_upper s : guessed (upper s) = guessed s.
Proof.
  unfold guessed. by rewrite letters_upper, first_chars_upper, upper_idemp.
Qed.

Lemma convert_to_iata_three_capitals loc code :
  convert_to_iata loc = Some code →
  String.length code = 3 ∧ string_forall is_upper code = true.
Proof.
  rewrite convert_to_iata_cases.
  destruct (String.eqb loc ""); [done|].
  destruct ((String.length (strip loc) =? 3) && isalpha (strip loc)) eqn:Hcode.
  - intros [= <-]. apply andb_prop in Hcode as [Hlen%Nat.eqb_eq [_ Halpha]%andb_prop].
    split; [by rewrite upper_length | by apply upper_is_upper].
  - assert (∀ c, guessed (strip loc) = Some c →
                 String.length c = 3 ∧ string_forall is_upper c = true) as Hguess.
    { intros c Hc. pose proof (guessed_spec (strip loc)) as H.
      rewrite Hc in H. tauto. }
    destruct (mapping_get (lower (strip loc)) mapping) as [c|] eqn:Hget; [|apply Hguess].
    destruct (String.eqb c ""); [apply Hguess|]. intros [= <-].
    apply (mapping_get_forall
             (λ kv, (String.length kv.2 =? 3) && string_forall is_upper kv.2)) in Hget;
      [|reflexivity].
    apply andb_prop in Hget as [Hlen%Nat.eqb_eq Hup]. done.
Qed.

(** [convert_to_iata] answers [None] exactly when the text, stripped, has
    fewer than three letters. *)
Theorem convert_to_iata_none_iff loc :
  is_ascii loc = true →
  convert_to_iata loc = None ↔ String.length (letters (strip loc)) < 3.
Proof.
  intros _. rewrite convert_to_iata_cases.
  destruct (String.eqb_spec loc "") as [->|_]; [simpl; split; [lia|done]|].
  pose proof (guessed_spec (strip loc)) as Hguess.
  destruct ((String.length (strip loc) =? 3) && isalpha (strip loc)) eqn:Hcode.
  - apply andb_prop in Hcode as [Hlen%Nat.eqb_eq [_ Halpha]%andb_prop].
    rewrite letters_fixed, Hlen by done. split; [done|lia].
  - destruct (mapping_get (lower (strip loc)) mapping) as [c|] eqn:Hget.
    + destruct (String.eqb c "").
      * destruct (guessed (strip loc)); split; try done; lia.
      * apply (mapping_get_forall (λ kv, 3 <=? String.length (letters kv.1))) in Hget;
          [|reflexivity].
        apply Nat.leb_le in Hget. simpl in Hget. rewrite letters_lower_length in Hget.
        split; [done|lia].
    + destruct (guessed (strip loc)); split; try done; lia.
Qed.

Lemma convert_to_iata_none_iff_witness :
  is_ascii " x-y 12 " = true ∧
  (convert_to_iata " x-y 12 " = None ↔ String.length (letters (strip " x-y 12 ")) < 3).
Proof.
  split; [reflexivity|].
  apply (convert_to_iata_none_iff " x-y 12 "). reflexivity.
Defined.

(** Whatever code [convert_to_iata] answers with is made of three capital
    letters, and is answered with itself when it is given back. *)
Theorem convert_to_iata_gives_fixed_codes loc code :
  is_ascii loc = true →
  convert_to_iata loc = Some code →
  String.length code = 3 ∧ string_forall is_upper code = true ∧
  convert_to_iata code = Some code.
Proof.
  intros Hascii Hcode.
  destruct (convert_to_iata_three_capitals loc code Hcode) as [Hlen Hup].
  split; [done|]. split; [done|].
  rewrite convert_to_iata_cases.
  assert (strip code = code) as ->.
  { apply strip_id. eapply string_forall_impl; [|exact Hup].
    intros c Hc. by apply is_alpha_not_space, is_upper_alpha. }
  destruct code as [|c code]; [done|]. cbn [String.eqb].
  rewrite Hlen. unfold isalpha. cbn [String.eqb negb andb Nat.eqb].
  rewrite (string_forall_impl is_upper is_alpha) by (done || apply is_upper_alpha).
  by rewrite upper_fixed.
Qed.

Lemma convert_to_iata_gives_fixed_codes_witness :
  is_ascii "Kanpur Nagar" = true ∧
  convert_to_iata "Kanpur Nagar" = Some "KAN" ∧
  String.length "KAN" = 3 ∧ string_forall is_upper "KAN" = true ∧
  convert_to_iata "KAN" = Some "KAN".
Proof.
  split; [reflexivity|]. split; [reflexivity|].
  apply (convert_to_iata_gives_fixed_codes "Kanpur Nagar" "KAN"); reflexivity.
Defined.

(** Capital and small letters are not told apart. *)
Theorem convert_to_iata_ignores_case loc :
  is_ascii loc = true →
  convert_to_iata (upper loc) = convert_to_iata loc.
Proof.
  intros _. rewrite !convert_to_iata_cases.
  by rewrite upper_empty, strip_upper, upper_length, isalpha_upper, upper_idemp,
    lower_upper, guessed_upper.
Qed.

Lemma convert_to_iata_ignores_case_witness :
  is_ascii "New Delhi" = true ∧
  convert_to_iata (upper "New Delhi") = convert_to_iata "New Delhi".
Proof.
  split; [reflexivity|].
  apply (convert_to_iata_ignores_case "New Delhi"). reflexivity.
Defined.

(** ** The fallback models *)

Lemma split_commas_nonempty s : split_commas s ≠ [].
Proof.
  induction s as [|c s IH]; simpl; [done|].
  destruct (split_commas s); [done|]. by destruct (Ascii.eqb c ",").
Qed.

Lemma split_commas_pieces s :
  Forall (λ piece, string_forall not_comma piece = true) (split_commas s).
Proof.
  induction s as [|c s IH]; simpl; [by constructor|].
  destruct (split_commas s) as [|piece pieces]; [constructor|].
  apply Forall_cons in IH as [Hp Hps].
  destruct (Ascii.eqb c ",") eqn:Hc.
  - constructor; [done | by constructor].
  - constructor; [|done]. simpl. unfold not_comma at 1. by rewrite Hc.
Qed.

Lemma lstrip_forall P s : string_forall P s = true → string_forall P (lstrip s) = true.
Proof.
  induction s as [|c s IH]; simpl; [done|].
  intros [Hc Hs]%andb_prop. destruct (is_space c); [auto|]. simpl. by rewrite Hc.
Qed.

Lemma rstrip_forall P s : string_forall P s = true → string_forall P (rstrip s) = true.
Proof.
  induction s as [|c s IH]; simpl; [done|].
  intros [Hc Hs]%andb_prop. specialize (IH Hs).
  destruct (rstrip s); simpl in *.
  - destruct (is_space c); simpl; [done|by rewrite Hc].
  - by rewrite Hc.
Qed.

Lemma rstrip_idemp s : rstrip (rstrip s) = rstrip s.
Proof.
  induction s as [|c s IH]; simpl; [done|].
  destruct (rstrip s) as [|c' r] eqn:Hr.
  - destruct (is_space c) eqn:Hc; simpl; [done|by rewrite Hc].
  - cbn [rstrip]. cbn [rstrip] in IH. by rewrite IH.
Qed.

Lemma rstrip_head c s :
  is_space c = false → ∃ r, rstrip (String c s) = String c r.
Proof. intros Hc. simpl. destruct (rstrip s); rewrite ?Hc; eauto. Qed.

Lemma strip_idemp s : strip (strip s) = strip s.
Proof.
  unfold strip.
  assert (lstrip (rstrip (lstrip s)) = rstrip (lstrip s)) as ->; [|apply rstrip_idemp].
  assert (lstrip s = "" ∨ ∃ c t, lstrip s = String c t ∧ is_space c = false) as [->|Hs].
  { induction s as [|c s IH]; simpl; [by left|].
    destruct (is_space c) eqn:Hc; [done|]. right. eauto. }
  - done.
  - destruct Hs as (c & t & -> & Hc). destruct (rstrip_head c t Hc) as [r ->].
    simpl. by rewrite Hc.
Qed.

(** The names read from [GOOGLE_FALLBACK_MODELS] are never empty, hold no
    comma, and have no white space around them. *)
Theorem fallback_models_are_clean value m :
  m ∈ fallback_models value →
  m ≠ "" ∧ string_forall not_comma m = true ∧ strip m = m.
Proof.
  unfold fallback_models. intros Hm%list_elem_of_In.
  apply in_flat_map in Hm as (piece & Hpiece & Hm).
  destruct (String.eqb_spec (strip piece) "") as [|Hne]; [done|].
  destruct Hm as [<-|[]]. split; [done|]. split; [|apply strip_idemp].
  pose proof (split_commas_pieces value) as Hall. rewrite Forall_forall in Hall.
  apply list_elem_of_In, Hall in Hpiece.
  by apply rstrip_forall, lstrip_forall.
Qed.

Lemma fallback_models_are_clean_witness :
  "c d" ∈ fallback_models " a , ,b,, c d ," ∧
  "c d" ≠ "" ∧ string_forall not_comma "c d" = true ∧ strip "c d" = "c d".
Proof.
  assert ("c d" ∈ fallback_models " a , ,b,, c d ,") as H by (do 2 right; left).
  split; [exact H|].
  exact (fallback_models_are_clean _ _ H).
Defined.

Lemma split_commas_plain n :
  string_forall not_comma n = true → split_commas n = [n].
Proof.
  induction n as [|c n IH]; simpl; [done|].
  intros [Hc Hn]%andb_prop. rewrite IH by done.
  unfold not_comma in Hc. apply negb_true_iff in Hc. by rewrite Hc.
Qed.

Lemma split_commas_app n rest :
  string_forall not_comma n = true →
  split_commas (n ++ String "," rest)%string = n :: split_commas rest.
Proof.
  induction n as [|c n IH]; simpl.
  - intros _. destruct (split_commas rest) eqn:E; [|done].
    by apply split_commas_nonempty in E.
  - intros [Hc Hn]%andb_prop. rewrite IH by done.
    unfold not_comma in Hc. apply negb_true_iff in Hc. by rewrite Hc.
Qed.

Lemma split_commas_concat names :
  names ≠ [] →
  Forall (λ n, string_forall not_comma n = true) names →
  split_commas (String.concat "," names) = names.
Proof.
  induction names as [|n names IH]; [done|]. intros _ [Hn Hnames]%Forall_cons.
  destruct names as [|n' names].
  - simpl. by apply split_commas_plain.
  - change (String.concat "," (n :: n' :: names))
      with (n ++ String "," (String.concat "," (n' :: names)))%string.
    rewrite split_commas_app by done. f_equal. by apply IH.
Qed.

(** ASCII names that are not empty, hold no comma and have no white space
    around them are read back as they are from the text that joins them
    with commas. *)
Theorem fallback_models_of_joined names :
  Forall (λ n, is_ascii n = true ∧ n ≠ "" ∧
               string_forall not_comma n = true ∧ strip n = n) names →
  fallback_models (String.concat "," names) = names.
Proof.
  intros Hclean. unfold fallback_models.
  destruct names as [|n names]; [done|].
  rewrite split_commas_concat; [|done|].
  2:{ eapply Forall_impl; [exact Hclean|]. by intros m (_ & _ & ? & _). }
  induction Hclean as [|m ms (_ & Hne & _ & Hstrip) _ IH]; [done|].
  cbn [flat_map]. rewrite Hstrip.
  destruct (String.eqb_spec m "") as [|_]; [done|]. simpl. by rewrite IH.
Qed.

Lemma fallback_models_of_joined_witness :
  fallback_models
    (String.concat "," ["models/gemini-2.5-flash"; "models/gemini-flash-lite-latest"])
  = ["models/gemini-2.5-flash"; "models/gemini-flash-lite-latest"].
Proof.
  apply fallback_models_of_joined.
  repeat (constructor; [repeat split; done|]). constructor.
Defined.

(** ** Trying the fallback models *)

(** When a fallback succeeds, it is the first model of the list, other
    than the current one, that answers; it becomes the model in use and the
    current model, and no later model is tried. *)
Theorem first_answering_fallback_wins fallbacks st st' :
  try_fallbacks fallbacks st = (st', true) →
  ∃ before fb after,
    fallbacks = before ++ (fb, Answers) :: after ∧
    fb ≠ current_model st ∧
    Forall (λ a : string * attempt, a.1 = current_model st ∨ a.2 ≠ Answers) before ∧
    st' = Brain fb fb fb.
Proof.
  revert st. induction fallbacks as [|[fb outcome] rest IH]; intros st; simpl; [done|].
  destruct (String.eqb_spec fb (current_model st)) as [->|Hne].
  - intros (before & fb' & after & -> & ? & ? & ->)%IH.
    exists ((current_model st, outcome) :: before), fb', after.
    repeat split; try done. constructor; [by left|done].
  - destruct outcome.
    1-3: intros (before & fb' & after & -> & ? & ? & ->)%IH; simpl in *;
      eexists ((fb, _) :: before), fb', after;
      (repeat split; try done); (constructor; [by right|done]).
    intros [= <-]. exists [], fb, rest. by repeat split.
Qed.

Lemma first_answering_fallback_wins_witness :
  try_fallbacks [("m1", InvokeRaises); ("cur", Answers); ("m2", Answers); ("m3", Answers)]
                (Brain "cur" "cur" "cur") = (Brain "m2" "m2" "m2", true) ∧
  ∃ before fb after,
    [("m1", InvokeRaises); ("cur", Answers); ("m2", Answers); ("m3", Answers)]
    = before ++ (fb, Answers) :: after ∧
    fb ≠ current_model (Brain "cur" "cur" "cur") ∧
    Forall (λ a : string * attempt,
              a.1 = current_model (Brain "cur" "cur" "cur") ∨ a.2 ≠ Answers) before ∧
    Brain "m2" "m2" "m2" = Brain fb fb fb.
Proof.
  split; [reflexivity|].
  apply (first_answering_fallback_wins _ (Brain "cur" "cur" "cur")). reflexivity.
Defined.

(** When no fallback succeeds, the current model stays and no model of the
    list other than the current one has answered; but the model in use is
    then the last fallback that was invoked, not the current model, if any
    was invoked. *)
Theorem failed_fallbacks_leave_last_model fallbacks st st' :
  try_fallbacks fallbacks st = (st', false) →
  current_model st' = current_model st ∧
  Forall (λ a : string * attempt, a.1 = current_model st ∨ a.2 ≠ Answers) fallbacks ∧
  llm_with_tools st'
  = default (llm_with_tools st) (last (invoked_in_vain (current_model st) fallbacks)) ∧
  (invoked_in_vain (current_model st) fallbacks ≠ [] →
   llm_with_tools st' ≠ current_model st').
Proof.
  intros H.
  assert (current_model st' = current_model st ∧
    Forall (λ a : string * attempt, a.1 = current_model st ∨ a.2 ≠ Answers) fallbacks ∧
    llm_with_tools st'
    = default (llm_with_tools st)
        (last (invoked_in_vain (current_model st) fallbacks))) as (Hc & Hf & Hl).
  { revert st H. unfold invoked_in_vain.
    induction fallbacks as [|[fb outcome] rest IH]; intros st; simpl.
    - intros [= <-]. by repeat split.
    - destruct (String.eqb_spec fb (current_model st)) as [->|Hne].
      + intros (? & ? & ->)%IH. repeat split; [done|constructor; [by left|done]|].
        by rewrite filter_cons_False by (by intros [[] _]).
      + destruct outcome; [..|done].
        * intros (? & ? & ->)%IH. repeat split; [done|constructor; [by right|done]|].
          by rewrite filter_cons_False by (by intros [_ ?]).
        * intros (? & ? & ->)%IH. simpl in *.
          repeat split; [done|constructor; [by right|done]|].
          by rewrite filter_cons_False by (by intros [_ ?]).
        * intros (? & ? & ->)%IH. simpl in *.
          repeat split; [done|constructor; [by right|done]|].
          rewrite filter_cons_True by done. rewrite fmap_cons, last_cons.
          by destruct (last _). }
  repeat split; try done.
  intros Hsome. rewrite Hl, Hc.
  destruct (last (invoked_in_vain _ _)) as [fb|] eqn:Hlast.
  - simpl. apply last_Some_elem_of in Hlast. unfold invoked_in_vain in Hlast.
    apply list_elem_of_fmap in Hlast as ([fb' o] & -> & [[? _] _]%list_elem_of_filter).
    done.
  - by apply last_None in Hlast.
Qed.

Lemma failed_fallbacks_leave_last_model_witness :
  try_fallbacks [("m1", InvokeRaises); ("cur", Answers); ("m2", CreateRaises)]
                (Brain "cur" "cur" "cur")
  = (Brain "m1" "m1" "cur", false) ∧
  current_model (Brain "m1" "m1" "cur") = current_model (Brain "cur" "cur" "cur") ∧
  Forall (λ a : string * attempt,
            a.1 = current_model (Brain "cur" "cur" "cur") ∨ a.2 ≠ Answers)
         [("m1", InvokeRaises); ("cur", Answers); ("m2", CreateRaises)] ∧
  llm_with_tools (Brain "m1" "m1" "cur")
  = default (llm_with_tools (Brain "cur" "cur" "cur"))
      (last (invoked_in_vain (current_model (Brain "cur" "cur" "cur"))
               [("m1", InvokeRaises); ("cur", Answers); ("m2", CreateRaises)])) ∧
  (invoked_in_vain (current_model (Brain "cur" "cur" "cur"))
     [("m1", InvokeRaises); ("cur", Answers); ("m2", CreateRaises)] ≠ [] →
   llm_with_tools (Brain "m1" "m1" "cur") ≠ current_model (Brain "m1" "m1" "cur")).
Proof.
  split; [reflexivity|].
  apply (failed_fallbacks_leave_last_model _ (Brain "cur" "cur" "cur")). reflexivity.
Defined.
